(** * MailMindAI: the rule-based campaign-improvement predictor

    A shallow embedding of [api/ml_model_simple.py] (class
    [EmailCampaignMLModel]), with the properties its specification states.

    Modelling conventions.
    - A Python [dict] with string keys is a [gmap string pyval].
    - Python values keep their dynamic type ([pyval]); arithmetic keeps the
      [int]/[float] distinction ([num]).
    - A [float] is a binary64 double, written as a rational ([Qc]): the
      value of the double, or a decimal such as [11/10] for the literal
      [1.1], which stands for the double nearest to it. A float operation
      rounds its operands and its exact result to the nearest double.
      That rounding, [rnd], is a parameter of the development: a theorem
      holds whatever [rnd] is, unless it names the laws of rounding it
      relies on ([nearest], [exact_widths]). [binary64] is the rounding
      of the doubles themselves; [exact] is arithmetic without rounding.
    - An [int] is unbounded; one that is too large for a double raises
      [OverflowError] when it meets a float. Infinities and NaN are
      outside the model.
    - Exceptions are explicit ([result]); the methods of the class run in a
      state-and-exception monad [M] over a [world] made of the model
      object, the position in the stream of [random.random()] draws, the
      files written and the log records emitted. *)

From Stdlib Require Import ZArith QArith Qcanon Qround Qpower Lia Lqa.
From stdpp Require Import base option list strings gmap numbers.

Local Open Scope string_scope.
Local Open Scope Z_scope.
Local Open Scope Qc_scope.

(** ** Rationals standing for floats *)

(** The literal [n/d]. *)
Definition qc (n : Z) (d : positive) : Qc := Q2Qc (n # d).

Definition Qcltb (x y : Qc) : bool :=
  match x ?= y with Lt => true | _ => false end.

(** Maximum and minimum of two rationals. *)
Definition qmax (x y : Qc) : Qc := if Qcltb x y then y else x.
Definition qmin (x y : Qc) : Qc := if Qcltb y x then y else x.

(** The absolute value. *)
Definition qabs (x : Qc) : Qc := if Qcltb x 0 then - x else x.

(** ** Python values *)

#[local] Unset Elimination Schemes.
Inductive pyval : Type :=
  | PNone
  | PBool (b : bool)
  | PInt (z : Z)
  | PFloat (q : Qc)
  | PStr (s : string)
  | PList (l : list pyval).
#[local] Set Elimination Schemes.

(** Numbers: the values on which [-], [*], [<], [round] are defined. *)
Inductive num : Type :=
  | NInt (z : Z)
  | NFloat (q : Qc).

Definition num_val (n : num) : Qc :=
  match n with
  | NInt z => Qc_of_Z z
  | NFloat q => q
  end.

Definition num_to_py (n : num) : pyval :=
  match n with
  | NInt z => PInt z
  | NFloat q => PFloat q
  end.

(** [bool] is a subclass of [int]: [True] is 1 and [False] is 0. *)
Definition as_num (v : pyval) : option num :=
  match v with
  | PBool b => Some (NInt (if b then 1 else 0)%Z)
  | PInt z => Some (NInt z)
  | PFloat q => Some (NFloat q)
  | PNone | PStr _ | PList _ => None
  end.

Definition is_numeric (v : pyval) : bool :=
  match as_num v with Some _ => true | None => false end.

Definition is_hashable (v : pyval) : bool :=
  match v with PList _ => false | _ => true end.

(** ** Exceptions *)

Inductive exn : Type :=
  | TypeError
  | KeyError (k : string)
  | ValueError
  | OverflowError
  | ZeroDivisionError
  | StatisticsError.

Inductive result (A : Type) : Type :=
  | Ok (a : A)
  | Raise (e : exn).
Arguments Ok {A} a.
Arguments Raise {A} e.

Global Instance result_ret : MRet result := λ A a, Ok a.
Global Instance result_bind : MBind result := λ A B f r,
  match r with
  | Ok a => f a
  | Raise e => Raise e
  end.

Global Instance result_fmap : FMap result := λ A B f r,
  match r with
  | Ok a => Ok (f a)
  | Raise e => Raise e
  end.

Global Instance num_eq_dec : EqDecision num.
Proof. solve_decision. Defined.

Global Instance exn_eq_dec : EqDecision exn.
Proof. solve_decision. Defined.

Global Instance result_eq_dec {A} `{EqDecision A} : EqDecision (result A).
Proof. solve_decision. Defined.

(** ** [max], [min] and [round] as Python does them *)

(** The builtins [max(a, b)] and [min(a, b)] keep the first argument
    unless the second is strictly better, and return the argument itself
    (so its type). *)
Definition py_max (a b : num) : num :=
  if Qcltb (num_val a) (num_val b) then b else a.

Definition py_min (a b : num) : num :=
  if Qcltb (num_val b) (num_val a) then b else a.

(** Round half to even to the nearest integer. *)
Definition round_half_even (q : Qc) : Z :=
  let f := Qfloor q in
  match (q - Qc_of_Z f ?= qc 1 2)%Qc with
  | Lt => f
  | Gt => (f + 1)%Z
  | Eq => if Z.even f then f else (f + 1)%Z
  end.

Definition pow10 (ndigits : nat) : Z := (10 ^ Z.of_nat ndigits)%Z.

(** The decimal with [ndigits] places nearest to [q], ties to the even
    last digit. *)
Definition round_qc (q : Qc) (ndigits : nat) : Qc :=
  Qc_of_Z (round_half_even (q * Qc_of_Z (pow10 ndigits))) / Qc_of_Z (pow10 ndigits).

(** [round(x, ndigits)] with [ndigits >= 0]: an [int] is returned as it
    is; a [float] is rounded, from the value of the double, to the
    nearest decimal at that place (ties to even), and the result is the
    double which that decimal stands for. *)
Definition py_round (x : num) (ndigits : nat) : num :=
  match x with
  | NInt z => NInt z
  | NFloat q => NFloat (round_qc q ndigits)
  end.

(** [d.get(key, default)]. *)
Definition dict_get (d : gmap string pyval) (key : string) (dflt : pyval) : pyval :=
  default dflt (d !! key).

(** [d[key]]. *)
Definition dict_item (d : gmap string pyval) (key : string) : result pyval :=
  match d !! key with
  | Some v => Ok v
  | None => Raise (KeyError key)
  end.

(** [table.get(key, default)] on a table whose keys are all strings: an
    unhashable key raises, a key of another type is never found. *)
Definition table_get (table : gmap string Qc) (key : pyval) (dflt : Qc) : result Qc :=
  match key with
  | PStr s => Ok (default dflt (table !! s))
  | PList _ => Raise TypeError
  | PNone | PBool _ | PInt _ | PFloat _ => Ok dflt
  end.

(** [min(hi, max(lo, x))]. *)
Definition clamp (lo hi : Z) (x : num) : num :=
  py_min (NInt hi) (py_max (NInt lo) x).

(** ** Float arithmetic *)

(** An [int] converts to a [float] when it rounds to a double, that is
    below [2^1024 - 2^970] in magnitude. *)
Definition float_limit : Z := (2 ^ 1024 - 2 ^ 970)%Z.

Definition convertible (n : num) : bool :=
  match n with
  | NInt z => (Z.abs z <? float_limit)%Z
  | NFloat _ => true
  end.

(** The float operand that a number gives: an [int] is converted, and
    the conversion of one that is too large raises. *)
Definition as_float (n : num) : result Qc :=
  if convertible n then Ok (num_val n) else Raise OverflowError.

Section Arithmetic.

(** The double nearest to a rational. *)
Variable rnd : Qc → Qc.

Definition fadd (a b : Qc) : Qc := rnd (rnd a + rnd b).
Definition fsub (a b : Qc) : Qc := rnd (rnd a - rnd b).
Definition fmul (a b : Qc) : Qc := rnd (rnd a * rnd b).
Definition fdiv (a b : Qc) : Qc := rnd (rnd a / rnd b).

(** The exact value of a number: an [int] is itself, a [float] is the
    double it stands for. *)
Definition exact_value (x : num) : Qc :=
  match x with
  | NInt z => Qc_of_Z z
  | NFloat q => rnd q
  end.

(** [v > n] and [v < n] against a number: a [TypeError] unless [v] is
    one. Python compares an [int] and a [float] by their exact values. *)
Definition py_gt (v : pyval) (n : num) : result bool :=
  match as_num v with
  | Some x => Ok (Qcltb (exact_value n) (exact_value x))
  | None => Raise TypeError
  end.

Definition py_lt (v : pyval) (n : num) : result bool :=
  match as_num v with
  | Some x => Ok (Qcltb (exact_value x) (exact_value n))
  | None => Raise TypeError
  end.

(** The float nearest to an exact rational ([float(Fraction)], and the
    true division of two [int]s). *)
Definition to_float (q : Qc) : result Qc :=
  if Qcltb (qabs q) (Qc_of_Z float_limit) then Ok (rnd q) else Raise OverflowError.

(** [a - b]: numbers only; anything else is a [TypeError]. Two [int]s
    subtract exactly; otherwise the operation is the one of floats. *)
Definition py_sub (a b : pyval) : result num :=
  match as_num a, as_num b with
  | Some (NInt x), Some (NInt y) => Ok (NInt (x - y)%Z)
  | Some x, Some y => x' ← as_float x; y' ← as_float y; mret (NFloat (fsub x' y'))
  | _, _ => Raise TypeError
  end.

Definition num_mul (a b : num) : result num :=
  match a, b with
  | NInt x, NInt y => Ok (NInt (x * y)%Z)
  | _, _ => x ← as_float a; y ← as_float b; mret (NFloat (fmul x y))
  end.

Definition num_add (a b : num) : result num :=
  match a, b with
  | NInt x, NInt y => Ok (NInt (x + y)%Z)
  | _, _ => x ← as_float a; y ← as_float b; mret (NFloat (fadd x y))
  end.

(** [a / b], the true division: always a [float]. The quotient of two
    [int]s is rounded once, from the exact quotient. *)
Definition py_truediv (a b : num) : result num :=
  match a, b with
  | NInt x, NInt y =>
    if (y =? 0)%Z then Raise ZeroDivisionError
    else NFloat <$> to_float (Qc_of_Z x / Qc_of_Z y)
  | _, _ =>
    x ← as_float a;
    y ← as_float b;
    if bool_decide (rnd y = 0) then Raise ZeroDivisionError
    else mret (NFloat (fdiv x y))
  end.

End Arithmetic.

(** The laws of rounding to the nearest double that some theorems rely
    on: it keeps the order, it leaves a double as it is, and a rational
    [n / 2^k] with [|n| < 2^53] and [k <= 1022] is a double. *)
Record nearest (rnd : Qc → Qc) : Prop := mk_nearest {
  rnd_mono : ∀ x y, x ≤ y → rnd x ≤ rnd y;
  rnd_idem : ∀ x, rnd (rnd x) = rnd x;
  rnd_exact : ∀ (n : Z) (k : nat),
    (Z.abs n < 2 ^ 53)%Z → (k ≤ 1022)%nat →
    rnd (Qc_of_Z n / Qc_of_Z (2 ^ Z.of_nat k)) = Qc_of_Z n / Qc_of_Z (2 ^ Z.of_nat k)
}.

(** Arithmetic without rounding. *)
Definition exact : Qc → Qc := λ q, q.

(** [2^e]. *)
Definition pow2 (e : Z) : Qc := Q2Qc (2 ^ e)%Q.

(** The exponent of a positive rational: [2^e <= q < 2^(e+1)]. *)
Definition ilog2 (q : Qc) : Z :=
  let e := (Z.log2 (Qnum q) - Z.log2 (Zpos (Qden q)))%Z in
  if Qcltb q (pow2 e) then (e - 1)%Z else e.

(** The double nearest to a positive rational, ties to the even
    significand: 53 significant bits, the least exponent that of the
    subnormal numbers. Beyond the largest double the exponent goes on
    (no infinity). *)
Definition round_magnitude (q : Qc) : Qc :=
  let e := Z.max (ilog2 q) (-1022) in
  let ulp := pow2 (e - 52) in
  Qc_of_Z (round_half_even (q / ulp)) * ulp.

(** Rounding to the nearest binary64 double: a sign and a magnitude. *)
Definition binary64 (q : Qc) : Qc :=
  match q ?= 0 with
  | Gt => round_magnitude q
  | Lt => - round_magnitude (- q)
  | Eq => 0
  end.

(** ** The model object and the world around it *)

(** One entry of [model_stats]: [{'mean': .., 'median': .., 'max': .., 'min': ..}]. *)
Record stats : Type := mk_stats {
  st_mean : num;
  st_median : num;
  st_max : num;
  st_min : num
}.

(** [model_stats], as [train_model] builds it: one entry per metric. *)
Record model_stats_t : Type := mk_model_stats {
  ms_open_rate : stats;
  ms_click_rate : stats;
  ms_conversion_rate : stats
}.

(** The attributes of an [EmailCampaignMLModel]. [model_stats] is created
    by [train_model] only: [None] is the attribute being absent. *)
Record model : Type := mk_model {
  is_trained : bool;
  model_path : string;
  historical_data : list (gmap string pyval);
  benchmarks : gmap string pyval;
  model_stats : option model_stats_t
}.

(** What [save_model] dumps in the file. *)
Record model_data : Type := mk_model_data {
  md_is_trained : bool;
  md_benchmarks : gmap string pyval;
  md_model_stats : option model_stats_t;
  md_historical_data_count : nat
}.

(** One constructor per [logger] call of the class. *)
Inductive log_record : Type :=
  | WarnNotEnoughData
  | InfoTrained (campaigns : nat)
  | ErrorTraining (e : exn)
  | WarnNotTrained
  | InfoGenerated (predictions : gmap string pyval)
  | ErrorPredicting (e : exn)
  | InfoSaved (path : string)
  | ErrorSaving (e : exn).

Record world : Type := mk_world {
  self : model;
  rng_pos : nat;
  files : gmap string model_data;
  log : list log_record
}.

Definition set_self (f : model → model) (w : world) : world :=
  mk_world (f (self w)) (rng_pos w) (files w) (log w).

(** ** State and exceptions *)

Record M (A : Type) : Type := mkM { run : world → result A * world }.
Arguments mkM {A} run.
Arguments run {A} m w.

Global Instance M_ret : MRet M := λ A a, mkM (λ w, (Ok a, w)).
Global Instance M_bind : MBind M := λ A B f m,
  mkM (λ w, match run m w with
            | (Ok a, w') => run (f a) w'
            | (Raise e, w') => (Raise e, w')
            end).

(** A computation without effects. *)
Definition lift {A} (r : result A) : M A := mkM (λ w, (r, w)).

(** [try: body except Exception as e: handler]: what [body] did to the
    world before it raised stays done. *)
Definition try_except {A} (body : M A) (handler : exn → M A) : M A :=
  mkM (λ w, match run body w with
            | (Ok a, w') => (Ok a, w')
            | (Raise e, w') => run (handler e) w'
            end).

Definition get_self : M model := mkM (λ w, (Ok (self w), w)).

Definition modify_self (f : model → model) : M unit :=
  mkM (λ w, (Ok tt, set_self f w)).

Definition logger (r : log_record) : M unit :=
  mkM (λ w, (Ok tt, mk_world (self w) (rng_pos w) (files w) (log w ++ [r]))).

Definition write_file (path : string) (content : model_data) : M unit :=
  mkM (λ w, (Ok tt, mk_world (self w) (rng_pos w) (<[path := content]> (files w)) (log w))).

Fixpoint mapM {A B} (f : A → M B) (l : list A) : M (list B) :=
  match l with
  | [] => mret []
  | a :: l' => b ← f a; bs ← mapM f l'; mret (b :: bs)
  end.

Definition set_is_trained (b : bool) (m : model) : model :=
  mk_model b (model_path m) (historical_data m) (benchmarks m) (model_stats m).

Definition set_historical_data (h : list (gmap string pyval)) (m : model) : model :=
  mk_model (is_trained m) (model_path m) h (benchmarks m) (model_stats m).

Definition set_model_stats (s : model_stats_t) (m : model) : model :=
  mk_model (is_trained m) (model_path m) (historical_data m) (benchmarks m) (Some s).

(** [__init__]. *)
Definition init_benchmarks : gmap string pyval :=
  {[ "open_rate" := PFloat (qc 22 1);
     "click_rate" := PFloat (qc 35 10);
     "conversion_rate" := PFloat (qc 2 1) ]}.

Definition init : model :=
  mk_model false "ml_model.json" [] init_benchmarks None.

(** ** [EmailCampaignMLModel] of [api/ml_model_simple.py] *)

(** An entry of [improvements_data]. *)
Record improvement : Type := mk_improvement {
  open_rate_improvement : num;
  click_rate_improvement : num;
  conversion_rate_improvement : num
}.

(** What [train_model] returns: one constructor per [return]. *)
Inductive train_report : Type :=
  | TrainedWithDefaults (campaigns_count : nat)
  | TrainMetrics (campaigns_trained : nat)
      (open_rate_avg_improvement click_rate_avg_improvement
       conversion_rate_avg_improvement : num)
  | TrainError (e : exn).

(** The table of [predict_improvements]. *)
Definition industry_multipliers : gmap string Qc :=
  {[ "Technology" := qc 12 10;
     "Healthcare" := qc 11 10;
     "Finance" := qc 10 10;
     "Retail" := qc 13 10;
     "Education" := qc 11 10 ]}.

(** The table of [create_synthetic_improvement_data]. *)
Definition training_industry_multipliers : gmap string Qc :=
  <["Unknown" := qc 10 10]> industry_multipliers.

Definition size_adjustments : gmap string Qc :=
  {[ "Small (1-50)" := qc 11 10;
     "Medium (51-200)" := qc 10 10;
     "Large (201-1000)" := qc 9 10;
     "Enterprise (1000+)" := qc 8 10 ]}.

Definition required_fields : list string :=
  ["emails_sent"; "open_rate"; "click_rate"; "conversion_rate"].

(** [prepare_features], one campaign. *)
Definition features_of (campaign : gmap string pyval) : gmap string pyval :=
  let features : gmap string pyval :=
    {[ "emails_sent" := dict_get campaign "emails_sent" (PInt 0);
       "open_rate" := dict_get campaign "open_rate" (PInt 0);
       "click_rate" := dict_get campaign "click_rate" (PInt 0);
       "conversion_rate" := dict_get campaign "conversion_rate" (PInt 0);
       "bounce_rate" := dict_get campaign "bounce_rate" (PInt 0);
       "unsubscribe_rate" := dict_get campaign "unsubscribe_rate" (PInt 0) ]} in
  <["target_market" := dict_get campaign "target_market" (PStr "Unknown")]>
  (<["target_industry" := dict_get campaign "target_industry" (PStr "Unknown")]>
  (<["target_company_size" := dict_get campaign "target_company_size" (PStr "Unknown")]>
  (<["age_range" := dict_get campaign "age_range" (PStr "Unknown")]> features))).

Definition prepare_features (campaigns_data : list (gmap string pyval))
  : list (gmap string pyval) :=
  features_of <$> campaigns_data.

Definition is_int (n : num) : bool :=
  match n with NInt _ => true | NFloat _ => false end.

Fixpoint insert_sorted (x : num) (l : list num) : list num :=
  match l with
  | [] => [x]
  | y :: l' => if Qcltb (num_val y) (num_val x) then y :: insert_sorted x l' else x :: l
  end.

(** [sorted(data)], stable. *)
Definition sorted (data : list num) : list num := foldr insert_sorted [] data.

(** [max(data)] and [min(data)] on a list: the first best element, a
    [ValueError] when the list is empty. *)
Definition list_max (data : list num) : result num :=
  match data with
  | [] => Raise ValueError
  | x :: l => Ok (foldl py_max x l)
  end.

Definition list_min (data : list num) : result num :=
  match data with
  | [] => Raise ValueError
  | x :: l => Ok (foldl py_min x l)
  end.

(** [rule_based_predictions]: the dict [predictions] of the [try] block. *)
Definition rule_based_predictions (open_improvement click_improvement
    conversion_improvement : num) (confidence : Qc) : gmap string pyval :=
  {[ "open_rate_improvement" := num_to_py (py_round open_improvement 1);
     "click_rate_improvement" := num_to_py (py_round click_improvement 1);
     "conversion_rate_improvement" := num_to_py (py_round conversion_improvement 1);
     "confidence_score" := PFloat (round_qc confidence 2);
     "prediction_method" := PStr "rule_based_with_statistics" ]}.

(** The record of the [except] branch of [predict_improvements]. *)
Definition default_fallback : gmap string pyval :=
  {[ "open_rate_improvement" := PFloat (qc 15 1);
     "click_rate_improvement" := PFloat (qc 25 1);
     "conversion_rate_improvement" := PFloat (qc 30 1);
     "confidence_score" := PFloat (qc 5 10);
     "prediction_method" := PStr "default_fallback" ]}.

(** [industry_multipliers.get(campaign_data.get('target_industry', 'Unknown'), 1.0)]. *)
Definition industry_multiplier (campaign_data : gmap string pyval) : result Qc :=
  let industry := dict_get campaign_data "target_industry" (PStr "Unknown") in
  table_get industry_multipliers industry (qc 10 10).

(** [size_adjustments.get(campaign_data.get('target_company_size', 'Unknown'), 1.0)]. *)
Definition size_adjustment (campaign_data : gmap string pyval) : result Qc :=
  let company_size := dict_get campaign_data "target_company_size" (PStr "Unknown") in
  table_get size_adjustments company_size (qc 10 10).

Section Model.

(** The double nearest to a rational. *)
Variable rnd : Qc → Qc.

(** The stream of values that successive calls of [random.random()]
    return; [rng_pos] in the world counts the calls made so far. *)
Variable random : nat → Qc.

(** ** The [statistics] module *)

(** [statistics.mean]: the exact sum over the length, converted at the
    end; the result is an [int] only when every datum is one and the
    quotient is whole. *)
Definition stat_mean (data : list num) : result num :=
  match data with
  | [] => Raise StatisticsError
  | _ =>
    let total := foldr (λ x acc, exact_value rnd x + acc) 0 data in
    let value := total / Qc_of_Z (Z.of_nat (length data)) in
    if forallb is_int data && Pos.eqb (Qden value) 1
    then Ok (NInt (Qnum value))
    else NFloat <$> to_float rnd value
  end.

(** [statistics.median]: the middle datum, or half the sum of the two
    middle ones (a true division, so a [float]). *)
Definition stat_median (data : list num) : result num :=
  let data' := sorted data in
  let n := length data' in
  match n with
  | O => Raise StatisticsError
  | _ =>
    if Nat.odd n then
      match data' !! (n / 2)%nat with
      | Some x => Ok x
      | None => Raise StatisticsError
      end
    else
      match data' !! (n / 2 - 1)%nat, data' !! (n / 2)%nat with
      | Some x, Some y => s ← num_add rnd x y; py_truediv rnd s (NInt 2)
      | _, _ => Raise StatisticsError
      end
  end.

(** ** The methods *)

(** [random.uniform(a, b)] is [a + (b - a) * random()]. *)
Definition uniform (a b : Qc) : M Qc :=
  mkM (λ w, (Ok (fadd rnd a (fmul rnd (fsub rnd b a) (random (rng_pos w)))),
             mk_world (self w) (S (rng_pos w)) (files w) (log w))).

(** [sum(1 for field in fields if campaign_data.get(field, 0) > 0)]. *)
Fixpoint count_positive (campaign_data : gmap string pyval) (fields : list string)
  : result nat :=
  match fields with
  | [] => Ok O
  | field :: rest =>
    b ← py_gt rnd (dict_get campaign_data field (PInt 0)) (NInt 0);
    n ← count_positive campaign_data rest;
    mret (if b : bool then S n else n)
  end.

(** [calculate_confidence]: it reads nothing of [self] and changes
    nothing. *)
Definition calculate_confidence (campaign_data : gmap string pyval) : result Qc :=
  let confidence := qc 7 10 in
  n ← count_positive campaign_data required_fields;
  completeness ← py_truediv rnd (NInt (Z.of_nat n)) (NInt (Z.of_nat (length required_fields)));
  let confidence := fmul rnd confidence (num_val completeness) in
  let emails_sent := dict_get campaign_data "emails_sent" (PInt 0) in
  big ← py_gt rnd emails_sent (NInt 10000);
  confidence ←
    (if big : bool then mret (fadd rnd confidence (qc 1 10))
     else
       small ← py_lt rnd emails_sent (NInt 1000);
       mret (if small : bool then fsub rnd confidence (qc 1 10) else confidence));
  mret (num_val (py_max (NFloat (qc 3 10)) (py_min (NFloat (qc 95 100)) (NFloat confidence)))).

(** [save_model]. Writing the file is taken to succeed. *)
Definition save_model : M unit :=
  try_except
    (m ← get_self;
     let model_data :=
       mk_model_data (is_trained m) (benchmarks m) (model_stats m)
                     (length (historical_data m)) in
     _ ← write_file (model_path m) model_data;
     logger (InfoSaved (model_path m)))
    (λ e, logger (ErrorSaving e)).

(** The body of the loop of [create_synthetic_improvement_data]. The
    operands of [*] are evaluated from left to right: the draw comes
    after the product of the potential and the multiplier. *)
Definition synthetic_improvement (campaign : gmap string pyval) : M improvement :=
  m ← get_self;
  open_potential ← lift (
    b ← dict_item (benchmarks m) "open_rate";
    c ← dict_item campaign "open_rate";
    py_max (NInt 0) <$> py_sub rnd b c);
  click_potential ← lift (
    b ← dict_item (benchmarks m) "click_rate";
    c ← dict_item campaign "click_rate";
    py_max (NInt 0) <$> py_sub rnd b c);
  conversion_potential ← lift (
    b ← dict_item (benchmarks m) "conversion_rate";
    c ← dict_item campaign "conversion_rate";
    py_max (NInt 0) <$> py_sub rnd b c);
  market_multiplier ← lift (
    industry ← dict_item campaign "target_industry";
    table_get training_industry_multipliers industry (qc 10 10));
  p ← lift (num_mul rnd open_potential (NFloat market_multiplier));
  j ← uniform (qc 8 10) (qc 12 10);
  p ← lift (num_mul rnd p (NFloat j));
  let open_improvement := clamp 5 50 p in
  p ← lift (num_mul rnd click_potential (NFloat market_multiplier));
  j ← uniform (qc 7 10) (qc 13 10);
  p ← lift (num_mul rnd p (NFloat j));
  let click_improvement := clamp 8 75 p in
  p ← lift (num_mul rnd conversion_potential (NFloat market_multiplier));
  j ← uniform (qc 6 10) (qc 14 10);
  p ← lift (num_mul rnd p (NFloat j));
  let conversion_improvement := clamp 10 100 p in
  mret (mk_improvement (py_round open_improvement 2)
                       (py_round click_improvement 2)
                       (py_round conversion_improvement 2)).

Definition create_synthetic_improvement_data (campaigns_data : list (gmap string pyval))
  : M (list (gmap string pyval) * list improvement) :=
  let features := prepare_features campaigns_data in
  improvements_data ← mapM synthetic_improvement features;
  mret (features, improvements_data).

(** One entry of [model_stats]. *)
Definition stats_of (improvements : list num) : result stats :=
  mean ← stat_mean improvements;
  median ← stat_median improvements;
  hi ← list_max improvements;
  lo ← list_min improvements;
  mret (mk_stats mean median hi lo).

Definition train_model (campaigns_data : list (gmap string pyval)) : M train_report :=
  if (length campaigns_data <? 3)%nat then
    _ ← logger WarnNotEnoughData;
    _ ← modify_self (set_is_trained true);
    mret (TrainedWithDefaults (length campaigns_data))
  else
    try_except
      ('(features, improvements) ← create_synthetic_improvement_data campaigns_data;
       _ ← modify_self (set_historical_data features);
       let open_improvements := open_rate_improvement <$> improvements in
       let click_improvements := click_rate_improvement <$> improvements in
       let conversion_improvements := conversion_rate_improvement <$> improvements in
       model_stats ← lift (
         o ← stats_of open_improvements;
         c ← stats_of click_improvements;
         v ← stats_of conversion_improvements;
         mret (mk_model_stats o c v));
       _ ← modify_self (set_model_stats model_stats);
       _ ← modify_self (set_is_trained true);
       _ ← save_model;
       metrics ← lift (
         o ← stat_mean open_improvements;
         c ← stat_mean click_improvements;
         v ← stat_mean conversion_improvements;
         mret (TrainMetrics (length campaigns_data)
                 (py_round o 2) (py_round c 2) (py_round v 2)));
       _ ← logger (InfoTrained (length campaigns_data));
       mret metrics)
      (λ e,
       _ ← logger (ErrorTraining e);
       _ ← modify_self (set_is_trained true);
       mret (TrainError e)).

(** [max(0, self.benchmarks[metric] - campaign_data.get(metric, 0))]. *)
Definition gap (benchmarks : gmap string pyval) (campaign_data : gmap string pyval)
    (metric : string) : result num :=
  b ← dict_item benchmarks metric;
  py_max (NInt 0) <$> py_sub rnd b (dict_get campaign_data metric (PInt 0)).

(** [min(hi, max(lo, gap * multiplier * size_adj * random.uniform(a, b)))]:
    the operands of [*] are evaluated from left to right, so the draw
    comes after the first two products. *)
Definition improvement_of (lo hi : Z) (gap : num) (multiplier size_adj a b : Qc) : M num :=
  p ← lift (num_mul rnd gap (NFloat multiplier));
  p ← lift (num_mul rnd p (NFloat size_adj));
  j ← uniform a b;
  p ← lift (num_mul rnd p (NFloat j));
  mret (clamp lo hi p).

(** The [try] block of [predict_improvements]. *)
Definition predict_try (campaign_data : gmap string pyval) : M (gmap string pyval) :=
  m ← get_self;
  open_gap ← lift (gap (benchmarks m) campaign_data "open_rate");
  click_gap ← lift (gap (benchmarks m) campaign_data "click_rate");
  conversion_gap ← lift (gap (benchmarks m) campaign_data "conversion_rate");
  multiplier ← lift (industry_multiplier campaign_data);
  size_adj ← lift (size_adjustment campaign_data);
  open_improvement ←
    improvement_of 5 45 open_gap multiplier size_adj (qc 8 10) (qc 12 10);
  click_improvement ←
    improvement_of 8 60 click_gap multiplier size_adj (qc 7 10) (qc 13 10);
  conversion_improvement ←
    improvement_of 10 80 conversion_gap multiplier size_adj (qc 6 10) (qc 14 10);
  confidence ← lift (calculate_confidence campaign_data);
  let predictions :=
    rule_based_predictions open_improvement click_improvement conversion_improvement
      confidence in
  _ ← logger (InfoGenerated predictions);
  mret predictions.

(** [improvement_of] with the draw [u] in hand. *)
Definition improvement_value (lo hi : Z) (gap : num) (multiplier size_adj a b u : Qc)
  : result num :=
  p ← num_mul rnd gap (NFloat multiplier);
  p ← num_mul rnd p (NFloat size_adj);
  p ← num_mul rnd p (NFloat (fadd rnd a (fmul rnd (fsub rnd b a) u)));
  mret (clamp lo hi p).

(** What the [try] block returns, read as a function of the benchmarks
    and of the position in the random stream: [predict_try_value_correct]
    below shows that it is the result of [predict_try]. *)
Definition predict_try_value (benchmarks : gmap string pyval) (pos : nat)
    (campaign_data : gmap string pyval) : result (gmap string pyval) :=
  open_gap ← gap benchmarks campaign_data "open_rate";
  click_gap ← gap benchmarks campaign_data "click_rate";
  conversion_gap ← gap benchmarks campaign_data "conversion_rate";
  multiplier ← industry_multiplier campaign_data;
  size_adj ← size_adjustment campaign_data;
  open_improvement ←
    improvement_value 5 45 open_gap multiplier size_adj (qc 8 10) (qc 12 10) (random pos);
  click_improvement ←
    improvement_value 8 60 click_gap multiplier size_adj (qc 7 10) (qc 13 10)
      (random (S pos));
  conversion_improvement ←
    improvement_value 10 80 conversion_gap multiplier size_adj (qc 6 10) (qc 14 10)
      (random (S (S pos)));
  confidence ← calculate_confidence campaign_data;
  mret (rule_based_predictions open_improvement click_improvement conversion_improvement
          confidence).

(** The guard in front of the [try] block of [predict_improvements]. *)
Definition ensure_trained (campaign_data : gmap string pyval) : M unit :=
  m ← get_self;
  if negb (is_trained m) then
    _ ← logger WarnNotTrained;
    _ ← train_model [campaign_data];
    mret tt
  else mret tt.

Definition predict_improvements (campaign_data : gmap string pyval)
  : M (gmap string pyval) :=
  _ ← ensure_trained campaign_data;
  try_except
    (predict_try campaign_data)
    (λ e,
     _ ← logger (ErrorPredicting e);
     mret default_fallback).

End Model.

(** ** The specification's reading of the engine *)

(** The number a field of a record holds, when it holds one. *)
Definition field_value (d : gmap string pyval) (key : string) : option Qc :=
  v ← d !! key; n ← as_num v; Some (num_val n).

(** A metric that is missing counts as 0. *)
Definition current (d : gmap string pyval) (metric : string) : Qc :=
  default 0 (field_value d metric).

(** The three tracked metrics. *)
Definition metrics : list string := ["open_rate"; "click_rate"; "conversion_rate"].

Module Spec.

Definition benchmark (metric : string) : Qc :=
  if String.eqb metric "open_rate" then qc 22 1
  else if String.eqb metric "click_rate" then qc 35 10
  else qc 2 1.

(** Unknown categories default to 1.0. *)
Definition lookup (table : gmap string Qc) (d : gmap string pyval) (key : string) : Qc :=
  match d !! key with
  | Some (PStr s) => default 1 (table !! s)
  | _ => 1
  end.

Definition multiplier (d : gmap string pyval) : Qc :=
  lookup industry_multipliers d "target_industry".

Definition size_adjustment (d : gmap string pyval) : Qc :=
  lookup size_adjustments d "target_company_size".

(** Clamp to [lo, hi]. *)
Definition clamp (lo hi x : Qc) : Qc := qmin hi (qmax lo x).

Section Formulas.

(** The double nearest to a rational: the arithmetic of the
    specification is the one of floats. *)
Variable rnd : Qc → Qc.

(** The number a field holds, a [float] being the double it stands
    for; a field that is missing counts as 0. *)
Definition reading (d : gmap string pyval) (field : string) : Qc :=
  default 0 (v ← d !! field; n ← as_num v; Some (exact_value rnd n)).

(** A field that is present and > 0. *)
Definition present_and_positive (d : gmap string pyval) (field : string) : bool :=
  Qcltb 0 (reading d field).

(** [gap = max(0, benchmark - current)]. *)
Definition gap (metric : string) (d : gmap string pyval) : Qc :=
  qmax 0 (fsub rnd (benchmark metric) (current d metric)).

(** [raw_improvement = gap * multiplier * size_adjustment * jitter]. *)
Definition raw_improvement (gap multiplier size_adjustment jitter : Qc) : Qc :=
  fmul rnd (fmul rnd (fmul rnd gap multiplier) size_adjustment) jitter.

(** The jitter of a metric: what [random.uniform(lo, hi)] makes of the
    draw [u] of [random.random()]. *)
Definition jitter (lo hi u : Qc) : Qc := fadd rnd lo (fmul rnd (fsub rnd hi lo) u).

(** The improvement percentage of a metric: the raw improvement,
    clamped to the metric's bounds and rounded to one decimal. *)
Definition improvement (lo hi : Z) (gap multiplier size_adjustment jitter : Qc) : Qc :=
  round_qc
    (clamp (Qc_of_Z lo) (Qc_of_Z hi) (raw_improvement gap multiplier size_adjustment jitter))
    1.

(** The fraction of the four required fields that are present and > 0. *)
Definition completeness (d : gmap string pyval) : Qc :=
  rnd (Qc_of_Z (Z.of_nat (length (filter (λ f, present_and_positive d f = true)
                                         required_fields)))
       / Qc_of_Z 4).

(** 0.7 times the completeness, plus 0.1 above 10000 emails, minus 0.1
    below 1000, clamped to [0.3, 0.95]. *)
Definition confidence (d : gmap string pyval) : Qc :=
  let emails_sent := reading d "emails_sent" in
  let c := fmul rnd (qc 7 10) (completeness d) in
  clamp (qc 3 10) (qc 95 100)
    (if Qcltb (Qc_of_Z 10000) emails_sent then fadd rnd c (qc 1 10)
     else if Qcltb emails_sent (Qc_of_Z 1000) then fsub rnd c (qc 1 10)
     else c).

End Formulas.

End Spec.

(** The ranges of the three jitters. *)
Definition jitter_ranges : list (Qc * Qc) :=
  [(qc 8 10, qc 12 10); (qc 7 10, qc 13 10); (qc 6 10, qc 14 10)].

(** The width of each range, taken between the doubles of its bounds,
    is a double: the subtraction in [random.uniform] is exact. *)
Definition exact_widths (rnd : Qc → Qc) : Prop :=
  ∀ lo hi, (lo, hi) ∈ jitter_ranges → rnd (rnd hi - rnd lo) = rnd hi - rnd lo.

(** ** Well-formed input *)

Definition numeric_or_absent (d : gmap string pyval) (key : string) : bool :=
  match d !! key with
  | Some v => is_numeric v
  | None => true
  end.

(** A rate is a number that float arithmetic accepts: a [float], or an
    [int] that converts to one. *)
Definition rate_or_absent (d : gmap string pyval) (key : string) : bool :=
  match d !! key with
  | Some v =>
    match as_num v with
    | Some n => convertible n
    | None => false
    end
  | None => true
  end.

Definition hashable_or_absent (d : gmap string pyval) (key : string) : bool :=
  match d !! key with
  | Some v => is_hashable v
  | None => true
  end.

(** [emails_sent] holds a number, the three rates hold numbers within
    the range of the floats, and the categorical fields hold strings (or
    any other hashable value, [None] included), each field possibly
    missing. *)
Definition well_formed (d : gmap string pyval) : bool :=
  numeric_or_absent d "emails_sent"
  && forallb (rate_or_absent d) metrics
  && hashable_or_absent d "target_industry"
  && hashable_or_absent d "target_company_size".

(** A category the lookup table does not know: the field is missing or
    [None], or holds a string that is not a key of the table. *)
Definition unknown_category (table : gmap string Qc) (d : gmap string pyval)
    (key : string) : bool :=
  match d !! key with
  | None | Some PNone => true
  | Some (PStr s) => bool_decide (table !! s = None)
  | Some _ => false
  end.

(** The world with the model's training statistics and historical data
    dropped, everything else as it is. *)
Definition without_statistics (w : world) : world :=
  mk_world
    (mk_model (is_trained (self w)) (model_path (self w)) [] (benchmarks (self w)) None)
    (rng_pos w) (files w) (log w).

(** The keys of the record [predict_improvements] returns. *)
Definition prediction_keys : gset string :=
  {[ "open_rate_improvement"; "click_rate_improvement"; "conversion_rate_improvement";
     "confidence_score"; "prediction_method" ]}.

(** Two records that [predict_improvements] cannot tell apart: every
    field it reads, with the default it reads it with, is the same. *)
Definition same_reads (d d' : gmap string pyval) : Prop :=
  (∀ key, key ∈ required_fields → dict_get d key (PInt 0) = dict_get d' key (PInt 0))
  ∧ dict_get d "target_industry" (PStr "Unknown")
    = dict_get d' "target_industry" (PStr "Unknown")
  ∧ dict_get d "target_company_size" (PStr "Unknown")
    = dict_get d' "target_company_size" (PStr "Unknown").

(** ** The claims of the specification that the code does not meet *)

Section Claims.

Variable rnd : Qc → Qc.
Variable random : nat → Qc.

(** The output record carries the three predicted absolute rates. *)
Definition output_has_predicted_rates (d : gmap string pyval) (w : world) : Prop :=
  ∃ out, fst (run (predict_improvements rnd random d) w) = Ok out
    ∧ is_Some (out !! "predicted_open_rate")
    ∧ is_Some (out !! "predicted_click_rate")
    ∧ is_Some (out !! "predicted_conversion_rate").

(** Each improvement is its metric's floor times the jitter draw. *)
Definition improvement_is_floor_times_jitter (d : gmap string pyval) (w : world) : Prop :=
  ∃ out, fst (run (predict_improvements rnd random d) w) = Ok out
    ∧ field_value out "open_rate_improvement"
      = Some (round_qc (fmul rnd (Qc_of_Z 5)
                          (Spec.jitter rnd (qc 8 10) (qc 12 10) (random (rng_pos w)))) 1)
    ∧ field_value out "click_rate_improvement"
      = Some (round_qc (fmul rnd (Qc_of_Z 8)
                          (Spec.jitter rnd (qc 7 10) (qc 13 10) (random (S (rng_pos w))))) 1)
    ∧ field_value out "conversion_rate_improvement"
      = Some (round_qc (fmul rnd (Qc_of_Z 10)
                          (Spec.jitter rnd (qc 6 10) (qc 14 10)
                             (random (S (S (rng_pos w)))))) 1).


End Claims.

(** ** Sample inputs *)

(** The model as [__init__] leaves it, nothing drawn, written or logged. *)
Definition fresh_world : world := mk_world init 0 ∅ [].

Definition trained_world : world := mk_world (set_is_trained true init) 0 ∅ [].

(** The first example of the specification: every metric above its
    benchmark, an industry outside the table, no company size. *)
Definition above_benchmarks : gmap string pyval :=
  {[ "emails_sent" := PInt 5000;
     "open_rate" := PFloat (qc 285 10);
     "click_rate" := PFloat (qc 82 10);
     "conversion_rate" := PFloat (qc 31 10);
     "target_industry" := PStr "E-commerce";
     "target_company_size" := PNone ]}.

(** The second example of the specification. *)
Definition below_benchmarks : gmap string pyval :=
  {[ "open_rate" := PInt 10;
     "click_rate" := PInt 1;
     "conversion_rate" := PFloat (qc 5 10);
     "target_industry" := PStr "Retail";
     "target_company_size" := PStr "Small (1-50)" ]}.

(** A record with nothing but an open rate. *)
Definition sparse : gmap string pyval := {[ "open_rate" := PInt 10 ]}.

(** An open rate of 6.35 and nothing else; an open rate of 8.5 in
    Healthcare. *)
Definition open_rate_6_35 : gmap string pyval := {[ "open_rate" := PFloat (qc 635 100) ]}.

Definition open_rate_8_5 : gmap string pyval :=
  {[ "open_rate" := PFloat (qc 85 10); "target_industry" := PStr "Healthcare" ]}.

(** An open rate that is an [int] beyond the floats. *)
Definition open_rate_huge : gmap string pyval :=
  {[ "emails_sent" := PInt 5000; "open_rate" := PInt (10 ^ 400) ]}.

(** A trained model with no statistics, twelve draws into the stream. *)
Definition trained_world_at_12 : world :=
  mk_world (mk_model true "ml_model.json" [] init_benchmarks None) 12 ∅ [].

(** A record whose open rate is not a number. *)
Definition malformed : gmap string pyval :=
  <["open_rate" := PStr "n/a"]> below_benchmarks.

(** Four campaigns to train on. *)
Definition training_set : list (gmap string pyval) :=
  [above_benchmarks; below_benchmarks; below_benchmarks; above_benchmarks].

(** The stream whose every draw is [u]. *)
Definition constant_stream (u : Qc) : nat → Qc := λ _, u.

(** * Properties *)

(** ** Order on the rationals *)

Lemma Qcltb_lt (x y : Qc) : Qcltb x y = true ↔ x < y.
Proof. unfold Qcltb. rewrite Qclt_alt. destruct (x ?= y); split; congruence. Qed.

Lemma Qcltb_ge (x y : Qc) : Qcltb x y = false ↔ y ≤ x.
Proof. rewrite Qcle_ngt, <- Qcltb_lt. destruct (Qcltb x y); split; congruence. Qed.

Lemma qmax_lower_l (x y : Qc) : x ≤ qmax x y.
Proof.
  unfold qmax. destruct (Qcltb x y) eqn:E; [|reflexivity].
  apply Qclt_le_weak. by apply Qcltb_lt.
Qed.

Lemma qmax_lower_r (x y : Qc) : y ≤ qmax x y.
Proof.
  unfold qmax. destruct (Qcltb x y) eqn:E; [reflexivity|]. by apply Qcltb_ge.
Qed.

Lemma qmax_lub (x y z : Qc) : x ≤ z → y ≤ z → qmax x y ≤ z.
Proof. unfold qmax. by destruct (Qcltb x y). Qed.

Lemma qmin_upper_l (x y : Qc) : qmin x y ≤ x.
Proof.
  unfold qmin. destruct (Qcltb y x) eqn:E; [|reflexivity].
  apply Qclt_le_weak. by apply Qcltb_lt.
Qed.

Lemma qmin_glb (x y z : Qc) : z ≤ x → z ≤ y → z ≤ qmin x y.
Proof. unfold qmin. by destruct (Qcltb y x). Qed.

Lemma spec_clamp_bounds (lo hi x : Qc) :
  lo ≤ hi → lo ≤ Spec.clamp lo hi x ≤ hi.
Proof.
  intros Hle. unfold Spec.clamp. split.
  - apply qmin_glb; [done | apply qmax_lower_l].
  - apply qmin_upper_l.
Qed.

(** Python's [max]/[min] compute the mathematical ones. *)
Lemma py_max_val (a b : num) : num_val (py_max a b) = qmax (num_val a) (num_val b).
Proof. unfold py_max, qmax. by destruct (Qcltb _ _). Qed.

Lemma py_min_val (a b : num) : num_val (py_min a b) = qmin (num_val a) (num_val b).
Proof. unfold py_min, qmin. by destruct (Qcltb _ _). Qed.

Lemma clamp_val (lo hi : Z) (x : num) :
  num_val (clamp lo hi x) = Spec.clamp (Qc_of_Z lo) (Qc_of_Z hi) (num_val x).
Proof. unfold clamp, Spec.clamp. by rewrite py_min_val, py_max_val. Qed.

Lemma Qc_of_Z_le (a b : Z) : (a ≤ b)%Z → Qc_of_Z a ≤ Qc_of_Z b.
Proof. intros H. unfold Qcle. cbn. by rewrite <- Zle_Qle. Qed.

Lemma clamp_bounds (lo hi : Z) (x : num) :
  (lo ≤ hi)%Z → Qc_of_Z lo ≤ num_val (clamp lo hi x) ≤ Qc_of_Z hi.
Proof. intros H. rewrite clamp_val. by apply spec_clamp_bounds, Qc_of_Z_le. Qed.

(** ** Rounding to a decimal *)

Lemma Qfloor_Qc_of_Z (n : Z) : Qfloor (Qc_of_Z n) = n.
Proof. cbn. apply Qfloor_Z. Qed.

Lemma round_half_even_cases (q : Qc) :
  round_half_even q = Qfloor q
  ∨ (round_half_even q = (Qfloor q + 1)%Z ∧ Qc_of_Z (Qfloor q) < q).
Proof.
  unfold round_half_even. cbv zeta.
  destruct (q - Qc_of_Z (Qfloor q) ?= qc 1 2) eqn:E.
  - destruct (Z.even (Qfloor q)); [by left | right; split; [done|]].
    apply Qceq_alt in E.
    assert (this (q - Qc_of_Z (Qfloor q)) == this (qc 1 2))%Q as E'.
    { by rewrite E. }
    revert E'. unfold Qclt. cbn. rewrite !Qred_correct. intros. lra.
  - by left.
  - right. split; [done|]. apply Qcgt_alt in E. revert E.
    unfold Qclt. cbn. rewrite !Qred_correct. intros. lra.
Qed.

Lemma round_half_even_lower (n : Z) (q : Qc) :
  Qc_of_Z n ≤ q → (n ≤ round_half_even q)%Z.
Proof.
  intros H. assert (n ≤ Qfloor q)%Z.
  { rewrite <- (Qfloor_Qc_of_Z n). by apply Qfloor_resp_le. }
  destruct (round_half_even_cases q) as [-> | [-> _]]; lia.
Qed.

Lemma round_half_even_upper (n : Z) (q : Qc) :
  q ≤ Qc_of_Z n → (round_half_even q ≤ n)%Z.
Proof.
  intros H. assert (Qfloor q ≤ n)%Z as Hf.
  { rewrite <- (Qfloor_Qc_of_Z n). by apply Qfloor_resp_le. }
  destruct (round_half_even_cases q) as [-> | [-> Hlt]]; [done|].
  assert (Qfloor q < n)%Z; [|lia].
  rewrite Zlt_Qlt. unfold Qclt, Qcle in *. cbn in *. lra.
Qed.

Lemma round_half_even_Z (n : Z) : round_half_even (Qc_of_Z n) = n.
Proof.
  apply Z.le_antisymm.
  - by apply round_half_even_upper.
  - by apply round_half_even_lower.
Qed.

Lemma pow10_pos (k : nat) : (0 < pow10 k)%Z.
Proof. unfold pow10. apply Z.pow_pos_nonneg; lia. Qed.

Lemma Qc_of_Z_mul (a b : Z) : Qc_of_Z (a * b) = Qc_of_Z a * Qc_of_Z b.
Proof.
  apply Qc_is_canon. cbn. rewrite Qred_correct. unfold Qeq. cbn. lia.
Qed.

Lemma Qc_of_Z_pow10_pos (k : nat) : 0 < Qc_of_Z (pow10 k).
Proof.
  pose proof (pow10_pos k). unfold Qclt. cbn. by rewrite <- (Zlt_Qlt 0).
Qed.

(** A bound that is itself a decimal with [k] places survives rounding
    to [k] places. *)
Lemma round_qc_lower (b q : Qc) (k : nat) (n : Z) :
  b * Qc_of_Z (pow10 k) = Qc_of_Z n → b ≤ q → b ≤ round_qc q k.
Proof.
  intros Hb Hq. pose proof (Qc_of_Z_pow10_pos k) as Hp. unfold round_qc.
  assert (Qc_of_Z n ≤ Qc_of_Z (round_half_even (q * Qc_of_Z (pow10 k)))) as H.
  { apply Qc_of_Z_le, round_half_even_lower. rewrite <- Hb.
    apply Qcmult_le_compat_r; [done | by apply Qclt_le_weak]. }
  rewrite <- Hb in H.
  apply Qcmult_lt_0_le_reg_r with (Qc_of_Z (pow10 k)); [done|].
  unfold Qcdiv. rewrite <- Qcmult_assoc, (Qcmult_comm (/ _)), Qcmult_inv_r, Qcmult_1_r; [done|].
  intros E. rewrite E in Hp. by apply Qclt_not_eq in Hp.
Qed.

Lemma round_qc_upper (b q : Qc) (k : nat) (n : Z) :
  b * Qc_of_Z (pow10 k) = Qc_of_Z n → q ≤ b → round_qc q k ≤ b.
Proof.
  intros Hb Hq. pose proof (Qc_of_Z_pow10_pos k) as Hp. unfold round_qc.
  assert (Qc_of_Z (round_half_even (q * Qc_of_Z (pow10 k))) ≤ Qc_of_Z n) as H.
  { apply Qc_of_Z_le, round_half_even_upper. rewrite <- Hb.
    apply Qcmult_le_compat_r; [done | by apply Qclt_le_weak]. }
  rewrite <- Hb in H.
  apply Qcmult_lt_0_le_reg_r with (Qc_of_Z (pow10 k)); [done|].
  unfold Qcdiv. rewrite <- Qcmult_assoc, (Qcmult_comm (/ _)), Qcmult_inv_r, Qcmult_1_r; [done|].
  intros E. rewrite E in Hp. by apply Qclt_not_eq in Hp.
Qed.

Lemma round_qc_Z (z : Z) (k : nat) : round_qc (Qc_of_Z z) k = Qc_of_Z z.
Proof.
  apply Qcle_antisym.
  - apply round_qc_upper with (z * pow10 k)%Z; [by rewrite Qc_of_Z_mul | done].
  - apply round_qc_lower with (z * pow10 k)%Z; [by rewrite Qc_of_Z_mul | done].
Qed.

(** [round] on numbers is rounding of their values. *)
Lemma py_round_val (x : num) (k : nat) : num_val (py_round x k) = round_qc (num_val x) k.
Proof. destruct x as [z|q]; cbn; [by rewrite round_qc_Z | done]. Qed.

Lemma py_round_bounds (lo hi : Z) (x : num) (k : nat) :
  Qc_of_Z lo ≤ num_val x ≤ Qc_of_Z hi →
  Qc_of_Z lo ≤ num_val (py_round x k) ≤ Qc_of_Z hi.
Proof.
  intros [Hlo Hhi]. rewrite py_round_val. split.
  - apply round_qc_lower with (lo * pow10 k)%Z; [by rewrite Qc_of_Z_mul | done].
  - apply round_qc_upper with (hi * pow10 k)%Z; [by rewrite Qc_of_Z_mul | done].
Qed.

(** ** Float operands *)

Lemma Ok_inj {A} (a b : A) : Ok a = Ok b → a = b.
Proof. by intros [= ->]. Qed.

Lemma Qc_of_Z_0 : Qc_of_Z 0 = 0.
Proof. by apply Qc_is_canon. Qed.

Lemma qc_10_10 : qc 10 10 = 1.
Proof. by apply Qc_is_canon. Qed.

Lemma as_float_convertible (n : num) :
  convertible n = true → as_float n = Ok (num_val n).
Proof. unfold as_float. by intros ->. Qed.

Lemma convertible_zero : convertible (NInt 0) = true.
Proof. reflexivity. Qed.

Lemma convertible_py_max_zero (x : Qc) : convertible (py_max (NInt 0) (NFloat x)) = true.
Proof. unfold py_max. by destruct (Qcltb _ _). Qed.

Section Operands.

Variable rnd : Qc → Qc.

(** The product of two floats never raises. *)
Lemma num_mul_floats (x y : Qc) :
  num_mul rnd (NFloat x) (NFloat y) = Ok (NFloat (fmul rnd x y)).
Proof. reflexivity. Qed.

(** The product of a number and a float is a float, unless the number
    is an [int] too large to be one. *)
Lemma num_mul_float (a : num) (y : Qc) :
  num_mul rnd a (NFloat y)
  = if convertible a then Ok (NFloat (fmul rnd (num_val a) y)) else Raise OverflowError.
Proof.
  destruct a as [z|x]; [|done]. unfold num_mul, as_float.
  by destruct (convertible (NInt z)).
Qed.

(** The three products and the clamp, for a gap that converts. *)
Lemma improvement_value_spec (lo hi : Z) (g : num) (m s a b u : Qc) :
  convertible g = true →
  improvement_value rnd lo hi g m s a b u
  = Ok (clamp lo hi
          (NFloat (Spec.raw_improvement rnd (num_val g) m s (Spec.jitter rnd a b u)))).
Proof.
  intros Hg. unfold improvement_value. rewrite num_mul_float, Hg. reflexivity.
Qed.

Lemma improvement_value_inv (lo hi : Z) (g x : num) (m s a b u : Qc) :
  improvement_value rnd lo hi g m s a b u = Ok x → ∃ p, x = clamp lo hi p.
Proof.
  unfold improvement_value. rewrite num_mul_float.
  destruct (convertible g); [|done]. cbn. intros <-%Ok_inj. by eexists.
Qed.

(** What is returned for an improvement is the specification's formula
    at the value of the gap. *)
Lemma improvement_val (lo hi : Z) (g m s j : Qc) :
  num_val (py_round (clamp lo hi (NFloat (Spec.raw_improvement rnd g m s j))) 1)
  = Spec.improvement rnd lo hi g m s j.
Proof. by rewrite py_round_val, clamp_val. Qed.

End Operands.

(** ** Running the monad *)

Lemma run_bind {A B} (m : M A) (f : A → M B) (w : world) :
  run (m ≫= f) w
  = match run m w with
    | (Ok a, w') => run (f a) w'
    | (Raise e, w') => (Raise e, w')
    end.
Proof. reflexivity. Qed.

Lemma run_try_except {A} (body : M A) (handler : exn → M A) (w : world) :
  run (try_except body handler) w
  = match run body w with
    | (Ok a, w') => (Ok a, w')
    | (Raise e, w') => run (handler e) w'
    end.
Proof. reflexivity. Qed.

Lemma run_ret {A} (a : A) (w : world) : run (mret a) w = (Ok a, w).
Proof. reflexivity. Qed.

Lemma run_lift {A} (r : result A) (w : world) : run (lift r) w = (r, w).
Proof. reflexivity. Qed.

Lemma run_get_self (w : world) : run get_self w = (Ok (self w), w).
Proof. reflexivity. Qed.

Lemma run_modify_self (f : model → model) (w : world) :
  run (modify_self f) w = (Ok tt, set_self f w).
Proof. reflexivity. Qed.

Lemma run_logger (r : log_record) (w : world) :
  run (logger r) w = (Ok tt, mk_world (self w) (rng_pos w) (files w) (log w ++ [r])).
Proof. reflexivity. Qed.

Lemma run_uniform (rnd : Qc → Qc) (random : nat → Qc) (a b : Qc) (w : world) :
  run (uniform rnd random a b) w
  = (Ok (Spec.jitter rnd a b (random (rng_pos w))),
     mk_world (self w) (S (rng_pos w)) (files w) (log w)).
Proof. reflexivity. Qed.

Lemma run_save_model (w : world) :
  run save_model w
  = (Ok tt,
     mk_world (self w) (rng_pos w)
       (<[model_path (self w) :=
            mk_model_data (is_trained (self w)) (benchmarks (self w))
              (model_stats (self w)) (length (historical_data (self w)))]> (files w))
       (log w ++ [InfoSaved (model_path (self w))])).
Proof. reflexivity. Qed.

(** One improvement: the draw is made unless the first product raises. *)
Lemma run_improvement_of (rnd : Qc → Qc) (random : nat → Qc) (lo hi : Z) (g : num)
    (m s a b : Qc) (w : world) :
  run (improvement_of rnd random lo hi g m s a b) w
  = match improvement_value rnd lo hi g m s a b (random (rng_pos w)) with
    | Ok x => (Ok x, mk_world (self w) (S (rng_pos w)) (files w) (log w))
    | Raise e => (Raise e, w)
    end.
Proof.
  unfold improvement_of, improvement_value.
  rewrite !run_bind, run_lift, num_mul_float.
  destruct (convertible g); reflexivity.
Qed.

Create Rewrite HintDb run.
Hint Rewrite @run_bind @run_try_except @run_ret @run_lift run_get_self
  run_modify_self run_logger run_uniform run_save_model run_improvement_of : run.

(** Unfold one layer of the monad and reduce the matches it exposes. *)
Ltac run_simpl :=
  repeat (progress (autorewrite with run; cbv beta iota; cbn [self rng_pos files log fst snd set_self])).

(** Case analysis on the next fallible step. *)
Ltac run_case :=
  match goal with
  | |- context [match ?r with Ok _ => _ | Raise _ => _ end] =>
      lazymatch r with
      | context [match _ with Ok _ => _ | Raise _ => _ end] => fail
      | _ => destruct r
      end
  end; run_simpl.

Section Frames.

Variable rnd : Qc → Qc.
Variable random : nat → Qc.

Lemma predict_try_value_correct d w :
  fst (run (predict_try rnd random d) w)
  = predict_try_value rnd random (benchmarks (self w)) (rng_pos w) d.
Proof.
  unfold predict_try, predict_try_value. run_simpl.
  repeat (run_case; cbn [mbind result_bind]; [|done]). done.
Qed.



Lemma synthetic_improvement_frame c w :
  self (snd (run (synthetic_improvement rnd random c) w)) = self w.
Proof.
  unfold synthetic_improvement. run_simpl. repeat (run_case; [|done]). done.
Qed.

Lemma mapM_synthetic_frame l w :
  self (snd (run (mapM (synthetic_improvement rnd random) l) w)) = self w.
Proof.
  revert w. induction l as [|c l IH]; intros w; [done|].
  cbn [mapM]. rewrite run_bind.
  pose proof (synthetic_improvement_frame c w) as Hc.
  destruct (run (synthetic_improvement rnd random c) w) as [[i|e] w1];
    cbn in Hc; [|done].
  rewrite run_bind. specialize (IH w1).
  destruct (run (mapM _ l) w1) as [[imps|e] w2]; cbn in *; congruence.
Qed.

Lemma train_model_trained ts w :
  let w' := snd (run (train_model rnd random ts) w) in
  is_trained (self w') = true
  ∧ benchmarks (self w') = benchmarks (self w)
  ∧ model_path (self w') = model_path (self w).
Proof.
  unfold train_model. destruct (_ <? _)%nat; [done|].
  unfold create_synthetic_improvement_data. run_simpl.
  pose proof (mapM_synthetic_frame (prepare_features ts) w) as Hm.
  destruct (run (mapM _ _) w) as [[imps|e] w1]; run_simpl; cbn in Hm;
    [|by rewrite Hm].
  repeat (run_case; [|by rewrite Hm]). by rewrite Hm.
Qed.

Lemma train_model_returns ts w : ∃ r, fst (run (train_model rnd random ts) w) = Ok r.
Proof.
  unfold train_model. destruct (_ <? _)%nat; [by eexists|].
  run_simpl. destruct (run _ w) as [[[f imps]|e] w1]; run_simpl; [|by eexists].
  repeat (run_case; [|by eexists]). by eexists.
Qed.

Lemma ensure_trained_trained d w :
  is_trained (self w) = true → run (ensure_trained rnd random d) w = (Ok tt, w).
Proof. unfold ensure_trained. run_simpl. by intros ->. Qed.

Lemma ensure_trained_untrained d w :
  is_trained (self w) = false →
  run (ensure_trained rnd random d) w
  = (Ok tt, mk_world (set_is_trained true (self w)) (rng_pos w) (files w)
              (log w ++ [WarnNotTrained; WarnNotEnoughData])).
Proof.
  unfold ensure_trained. run_simpl. intros ->. cbn. by rewrite <- app_assoc.
Qed.

End Frames.

(** ** The laws of rounding *)

Lemma nearest_exact : nearest exact.
Proof. by split. Qed.

Lemma exact_widths_exact : exact_widths exact.
Proof. by intros lo hi _. Qed.

Lemma Qc_of_Z_div_1 (z : Z) : Qc_of_Z z / Qc_of_Z (2 ^ Z.of_nat 0) = Qc_of_Z z.
Proof.
  assert (Qc_of_Z (2 ^ Z.of_nat 0) = 1) as -> by by apply Qc_is_canon.
  unfold Qcdiv. assert (/ 1 = 1) as -> by by apply Qc_is_canon. apply Qcmult_1_r.
Qed.

Section Rounding.

Variable rnd : Qc → Qc.
Hypothesis Hrnd : nearest rnd.

Lemma rnd_int (z : Z) : (Z.abs z < 2 ^ 53)%Z → rnd (Qc_of_Z z) = Qc_of_Z z.
Proof.
  intros Hz. rewrite <- (Qc_of_Z_div_1 z). apply (rnd_exact rnd Hrnd); [done | lia].
Qed.

Lemma rnd_0 : rnd 0 = 0.
Proof. rewrite <- Qc_of_Z_0. by apply rnd_int. Qed.

Lemma rnd_1 : rnd 1 = 1.
Proof.
  assert (1 = Qc_of_Z 1) as -> by by apply Qc_is_canon. by apply rnd_int.
Qed.

(** The benchmarks 22.0, 3.5 and 2.0 are doubles. *)
Lemma rnd_benchmark (metric : string) : rnd (Spec.benchmark metric) = Spec.benchmark metric.
Proof.
  unfold Spec.benchmark. destruct (String.eqb _ _); [|destruct (String.eqb _ _)].
  - assert (qc 22 1 = Qc_of_Z 22) as -> by by apply Qc_is_canon. by apply rnd_int.
  - assert (qc 35 10 = Qc_of_Z 7 / Qc_of_Z (2 ^ Z.of_nat 1)) as -> by compute_done.
    apply (rnd_exact rnd Hrnd); [done | lia].
  - assert (qc 2 1 = Qc_of_Z 2) as -> by by apply Qc_is_canon. by apply rnd_int.
Qed.

Lemma rnd_nonneg (x : Qc) : 0 ≤ x → 0 ≤ rnd x.
Proof. intros H. rewrite <- rnd_0. by apply (rnd_mono rnd Hrnd). Qed.

Lemma rnd_nonpos (x : Qc) : x ≤ 0 → rnd x ≤ 0.
Proof. intros H. rewrite <- rnd_0. by apply (rnd_mono rnd Hrnd). Qed.

Lemma fmul_zero (x : Qc) : fmul rnd 0 x = 0.
Proof. unfold fmul. rewrite rnd_0, Qcmult_0_l. apply rnd_0. Qed.

(** Subtracting a float from one that is not above it gives a float
    that is not positive. *)
Lemma fsub_nonpos (a b : Qc) : a ≤ b → fsub rnd a b ≤ 0.
Proof.
  intros H. apply rnd_nonpos. apply (rnd_mono rnd Hrnd) in H. revert H.
  unfold Qcle. cbn. rewrite !Qred_correct. intros. lra.
Qed.

Lemma fsub_zero (b : Qc) : rnd b = b → fsub rnd b 0 = b.
Proof.
  intros Hb. unfold fsub. rewrite rnd_0, Hb.
  assert (b - 0 = b) as -> by ring. done.
Qed.

(** [random.uniform(lo, hi)] stays between the doubles of its bounds
    when the width of the range is a double. *)
Lemma jitter_range (lo hi u : Qc) :
  lo ≤ hi → rnd (rnd hi - rnd lo) = rnd hi - rnd lo → 0 ≤ u → u ≤ 1 →
  rnd lo ≤ Spec.jitter rnd lo hi u ≤ rnd hi.
Proof.
  intros Hle Hw Hu0 Hu1. unfold Spec.jitter, fadd, fmul, fsub.
  rewrite !(rnd_idem rnd Hrnd), Hw.
  pose proof (rnd_mono rnd Hrnd _ _ Hle) as Hab.
  pose proof (rnd_nonneg u Hu0) as Hu0'.
  pose proof (rnd_mono rnd Hrnd _ _ Hu1) as Hu1'. rewrite rnd_1 in Hu1'.
  set (a := rnd lo) in *. set (b := rnd hi) in *. set (v := rnd u) in *.
  assert (0 ≤ (b - a) * v ≤ b - a) as [Ht0 Ht1].
  { revert Hab Hu0' Hu1'. unfold Qcle. cbn. rewrite !Qred_correct. intros. split; nra. }
  apply (rnd_mono rnd Hrnd) in Ht0, Ht1. rewrite rnd_0 in Ht0. rewrite Hw in Ht1.
  set (t := rnd ((b - a) * v)) in *.
  assert (a ≤ a + t ≤ b) as [Hs0 Hs1].
  { revert Ht0 Ht1. unfold Qcle. cbn. rewrite !Qred_correct. intros. split; lra. }
  apply (rnd_mono rnd Hrnd) in Hs0, Hs1.
  subst a b. rewrite (rnd_idem rnd Hrnd lo) in Hs0. rewrite (rnd_idem rnd Hrnd hi) in Hs1.
  done.
Qed.

(** A larger draw of [random.random()] gives a jitter that is not
    smaller. *)
Lemma jitter_mono (lo hi u u' : Qc) :
  lo ≤ hi → u ≤ u' → Spec.jitter rnd lo hi u ≤ Spec.jitter rnd lo hi u'.
Proof.
  intros Hle Hu. unfold Spec.jitter, fadd, fmul, fsub.
  pose proof (rnd_mono rnd Hrnd _ _ Hle) as Hab.
  pose proof (rnd_mono rnd Hrnd _ _ Hu) as Hv.
  assert (0 ≤ rnd (rnd (rnd hi - rnd lo))) as Hw.
  { do 2 apply rnd_nonneg. revert Hab. unfold Qcle. cbn. rewrite !Qred_correct.
    intros. lra. }
  set (width := rnd (rnd (rnd hi - rnd lo))) in *.
  set (v := rnd u) in *. set (v' := rnd u') in *.
  assert (width * v ≤ width * v') as Ht.
  { revert Hw Hv. unfold Qcle. cbn. rewrite !Qred_correct. intros. nra. }
  do 2 apply (rnd_mono rnd Hrnd) in Ht.
  apply (rnd_mono rnd Hrnd). revert Ht. unfold Qcle. cbn. rewrite !Qred_correct.
  intros. lra.
Qed.

End Rounding.

(** ** The engine against its specification *)

(** A numeric field read with default 0 yields the number the
    specification calls its current value. *)
Lemma dict_get_numeric (d : gmap string pyval) (key : string) :
  numeric_or_absent d key = true →
  ∃ n, as_num (dict_get d key (PInt 0)) = Some n ∧ num_val n = current d key.
Proof.
  unfold numeric_or_absent, dict_get, current, field_value, is_numeric.
  destruct (d !! key) as [v|]; cbn.
  - destruct (as_num v) as [n|]; [|done]. intros _. by exists n.
  - intros _. exists (NInt 0). by rewrite <- Qc_of_Z_0.
Qed.

Lemma dict_get_rate (d : gmap string pyval) (key : string) :
  rate_or_absent d key = true →
  ∃ n, as_num (dict_get d key (PInt 0)) = Some n ∧ num_val n = current d key
       ∧ convertible n = true.
Proof.
  unfold rate_or_absent, dict_get, current, field_value.
  destruct (d !! key) as [v|]; cbn.
  - destruct (as_num v) as [n|]; [|done]. intros Hn. by exists n.
  - intros _. exists (NInt 0). by rewrite <- Qc_of_Z_0.
Qed.

Lemma rate_is_numeric (d : gmap string pyval) (key : string) :
  rate_or_absent d key = true → numeric_or_absent d key = true.
Proof.
  unfold rate_or_absent, numeric_or_absent, is_numeric.
  destruct (d !! key) as [v|]; [|done]. by destruct (as_num v).
Qed.

Lemma current_missing (d : gmap string pyval) (key : string) :
  d !! key = None → current d key = 0.
Proof. unfold current, field_value. by intros ->. Qed.

Lemma init_benchmarks_lookup (metric : string) :
  metric ∈ metrics →
  init_benchmarks !! metric = Some (PFloat (Spec.benchmark metric)).
Proof.
  unfold metrics. rewrite !elem_of_cons, elem_of_nil.
  intros [-> | [-> | [-> | []]]]; reflexivity.
Qed.

Lemma table_get_spec (table : gmap string Qc) (d : gmap string pyval) (key : string) :
  table !! "Unknown" = None →
  hashable_or_absent d key = true →
  table_get table (dict_get d key (PStr "Unknown")) (qc 10 10) = Ok (Spec.lookup table d key).
Proof.
  unfold hashable_or_absent, dict_get, Spec.lookup. intros Hu.
  destruct (d !! key) as [v|]; cbn.
  - destruct v; cbn; try done; intros _; by rewrite qc_10_10.
  - intros _. by rewrite Hu, qc_10_10.
Qed.

Lemma industry_multiplier_spec (d : gmap string pyval) :
  hashable_or_absent d "target_industry" = true →
  industry_multiplier d = Ok (Spec.multiplier d).
Proof. intros H. by apply table_get_spec. Qed.

Lemma size_adjustment_spec (d : gmap string pyval) :
  hashable_or_absent d "target_company_size" = true →
  size_adjustment d = Ok (Spec.size_adjustment d).
Proof. intros H. by apply table_get_spec. Qed.

Lemma table_get_unknown (table : gmap string Qc) (d : gmap string pyval) (key : string) :
  table !! "Unknown" = None →
  unknown_category table d key = true →
  table_get table (dict_get d key (PStr "Unknown")) (qc 10 10) = Ok 1.
Proof.
  unfold unknown_category, dict_get. intros Hu.
  destruct (d !! key) as [[]|]; cbn; try done.
  - intros _. by rewrite qc_10_10.
  - intros ->%bool_decide_eq_true. by rewrite qc_10_10.
  - intros _. by rewrite Hu, qc_10_10.
Qed.

Lemma spec_lookup_unknown (table : gmap string Qc) (d : gmap string pyval) (key : string) :
  unknown_category table d key = true → Spec.lookup table d key = 1.
Proof.
  unfold unknown_category, Spec.lookup.
  destruct (d !! key) as [[]|]; try done. by intros ->%bool_decide_eq_true.
Qed.

Lemma field_value_num (out : gmap string pyval) (key : string) (n : num) :
  out !! key = Some (num_to_py n) → field_value out key = Some (num_val n).
Proof. unfold field_value. intros ->. by destruct n. Qed.

Lemma rule_based_predictions_lookup (o c v : num) (conf : Qc) :
  let out := rule_based_predictions o c v conf in
  out !! "open_rate_improvement" = Some (num_to_py (py_round o 1))
  ∧ out !! "click_rate_improvement" = Some (num_to_py (py_round c 1))
  ∧ out !! "conversion_rate_improvement" = Some (num_to_py (py_round v 1))
  ∧ out !! "confidence_score" = Some (PFloat (round_qc conf 2))
  ∧ out !! "prediction_method" = Some (PStr "rule_based_with_statistics").
Proof. done. Qed.

Lemma rule_based_predictions_dom (o c v : num) (conf : Qc) :
  dom (rule_based_predictions o c v conf) = prediction_keys.
Proof. unfold rule_based_predictions, prediction_keys. rewrite !dom_insert_L. set_solver. Qed.

Lemma default_fallback_dom : dom default_fallback = prediction_keys.
Proof. unfold default_fallback, prediction_keys. rewrite !dom_insert_L. set_solver. Qed.

Lemma qmax_qmin_swap (lo hi x : Qc) : lo ≤ hi → qmax lo (qmin hi x) = qmin hi (qmax lo x).
Proof.
  intros Hle. unfold qmax, qmin.
  destruct (Qcltb x hi) eqn:E1; destruct (Qcltb lo x) eqn:E2;
    rewrite ?E1, ?E2; try done.
  - apply Qcltb_ge in E2. apply Qcltb_lt in E1.
    destruct (Qcltb lo hi) eqn:E3; [done|]. apply Qcltb_ge in E3.
    by apply Qcle_antisym.
  - apply Qcltb_ge in E1. destruct (Qcltb lo hi) eqn:E3; [|by apply Qcltb_ge in E3; apply Qcle_antisym].
    done.
  - apply Qcltb_ge in E1, E2.
    assert (lo = hi) as -> by (apply Qcle_antisym; [done | by trans x]).
    assert (Qcltb hi hi = false) as -> by by apply Qcltb_ge.
    done.
Qed.

Section Confidence.

Variable rnd : Qc → Qc.

(** What a comparison reads of a numeric field. *)
Lemma dict_get_reading (d : gmap string pyval) (key : string) :
  numeric_or_absent d key = true →
  ∃ n, as_num (dict_get d key (PInt 0)) = Some n
       ∧ exact_value rnd n = Spec.reading rnd d key.
Proof.
  unfold numeric_or_absent, dict_get, Spec.reading, is_numeric.
  destruct (d !! key) as [v|]; cbn.
  - destruct (as_num v) as [n|]; [|done]. intros _. by exists n.
  - intros _. exists (NInt 0). cbn [exact_value]. by rewrite <- Qc_of_Z_0.
Qed.

Lemma py_gt_field (d : gmap string pyval) (field : string) :
  numeric_or_absent d field = true →
  py_gt rnd (dict_get d field (PInt 0)) (NInt 0)
  = Ok (Spec.present_and_positive rnd d field).
Proof.
  intros H. destruct (dict_get_reading d field H) as (n & Hn & Hv).
  unfold py_gt, Spec.present_and_positive. rewrite Hn, Hv.
  cbn [exact_value]. by rewrite <- Qc_of_Z_0.
Qed.

Lemma count_positive_spec (d : gmap string pyval) (fields : list string) :
  forallb (numeric_or_absent d) fields = true →
  count_positive rnd d fields
  = Ok (length (filter (λ f, Spec.present_and_positive rnd d f = true) fields)).
Proof.
  induction fields as [|f fields IH]; [done|].
  cbn [forallb count_positive]. intros [Hf Hr]%andb_prop.
  rewrite py_gt_field, IH by done. cbn [mbind result_bind mret result_ret].
  rewrite filter_cons. destruct (Spec.present_and_positive rnd d f); by case_decide.
Qed.

Lemma count_positive_le (d : gmap string pyval) (fields : list string) (n : nat) :
  count_positive rnd d fields = Ok n → (n ≤ length fields)%nat.
Proof.
  revert n. induction fields as [|f fields IH]; intros n; cbn [count_positive].
  - intros <-%Ok_inj. done.
  - destruct (py_gt _ _ _) as [b|]; [|done]. cbn [mbind result_bind].
    destruct (count_positive rnd d fields) as [k|]; [|done].
    cbn [mbind result_bind mret result_ret]. intros <-%Ok_inj.
    specialize (IH k eq_refl). cbn [length]. destruct b; lia.
Qed.

(** The gap of a metric whose benchmark is a float. *)
Lemma gap_value (bm d : gmap string pyval) (metric : string) (b : Qc) :
  bm !! metric = Some (PFloat b) →
  rate_or_absent d metric = true →
  gap rnd bm d metric = Ok (py_max (NInt 0) (NFloat (fsub rnd b (current d metric)))).
Proof.
  intros Hb Hn. destruct (dict_get_rate d metric Hn) as (n & Hn' & Hv & Hc).
  unfold gap, dict_item, py_sub. rewrite Hb, Hn'.
  cbn [mbind result_bind as_num]. rewrite (as_float_convertible n Hc), Hv.
  by destruct n.
Qed.

Lemma gap_spec (d : gmap string pyval) (metric : string) :
  metric ∈ metrics →
  rate_or_absent d metric = true →
  ∃ g, gap rnd init_benchmarks d metric = Ok g
       ∧ num_val g = Spec.gap rnd metric d
       ∧ convertible g = true.
Proof.
  intros Hm Hn. rewrite (gap_value _ _ _ _ (init_benchmarks_lookup metric Hm) Hn).
  eexists. split; [done|]. split; [|apply convertible_py_max_zero].
  rewrite py_max_val. unfold Spec.gap. cbn [num_val]. by rewrite Qc_of_Z_0.
Qed.

(** The fraction of at most four fields is within the floats. *)
Lemma py_truediv_count (k : nat) :
  (k ≤ 4)%nat →
  py_truediv rnd (NInt (Z.of_nat k)) (NInt (Z.of_nat (length required_fields)))
  = Ok (NFloat (rnd (Qc_of_Z (Z.of_nat k) / Qc_of_Z 4))).
Proof.
  intros Hk. unfold py_truediv, to_float.
  change (Z.of_nat (length required_fields)) with 4%Z. cbn [Z.eqb].
  assert (Qcltb (qabs (Qc_of_Z (Z.of_nat k) / Qc_of_Z 4)) (Qc_of_Z float_limit) = true)
    as ->; [|done].
  do 5 (destruct k as [|k]; [vm_compute; reflexivity|]). lia.
Qed.

Lemma calculate_confidence_spec (d : gmap string pyval) :
  forallb (numeric_or_absent d) required_fields = true →
  calculate_confidence rnd d = Ok (Spec.confidence rnd d).
Proof.
  intros H. unfold calculate_confidence. rewrite count_positive_spec by done.
  cbn [mbind result_bind]. rewrite py_truediv_count by apply length_filter.
  cbn [mbind result_bind num_val].
  assert (numeric_or_absent d "emails_sent" = true) as He.
  { cbn in H. by destruct (numeric_or_absent d "emails_sent"). }
  destruct (dict_get_reading d "emails_sent" He) as (n & Hn & Hv).
  unfold py_gt, py_lt. rewrite Hn. cbn [mbind result_bind].
  unfold Spec.confidence. cbv zeta. rewrite Hv.
  fold (Spec.completeness rnd d).
  assert (∀ c, num_val (py_max (NFloat (qc 3 10)) (py_min (NFloat (qc 95 100)) (NFloat c)))
               = Spec.clamp (qc 3 10) (qc 95 100) c) as Hc.
  { intros c. rewrite py_max_val, py_min_val. by apply qmax_qmin_swap. }
  change (exact_value rnd (NInt 10000)) with (Qc_of_Z 10000).
  change (exact_value rnd (NInt 1000)) with (Qc_of_Z 1000).
  destruct (Qcltb (Qc_of_Z 10000) _); cbn [mbind result_bind mret result_ret].
  - by rewrite Hc.
  - destruct (Qcltb _ (Qc_of_Z 1000)); by rewrite Hc.
Qed.

Lemma spec_confidence_bounds (d : gmap string pyval) :
  qc 3 10 ≤ Spec.confidence rnd d ≤ qc 95 100.
Proof. by apply spec_clamp_bounds. Qed.

Lemma confidence_round_bounds (c : Qc) :
  qc 3 10 ≤ c ≤ qc 95 100 → qc 3 10 ≤ round_qc c 2 ≤ qc 95 100.
Proof.
  intros [Hlo Hhi]. split.
  - apply round_qc_lower with 30%Z; [by apply Qc_is_canon | done].
  - apply round_qc_upper with 95%Z; [by apply Qc_is_canon | done].
Qed.

Lemma calculate_confidence_bounds (d : gmap string pyval) (c : Qc) :
  calculate_confidence rnd d = Ok c → qc 3 10 ≤ c ≤ qc 95 100.
Proof.
  unfold calculate_confidence.
  destruct (count_positive rnd d required_fields) as [n|]; [|done]. cbn [mbind result_bind].
  destruct (py_truediv _ _ _) as [completeness|]; [|done]. cbn [mbind result_bind].
  destruct (py_gt _ _ _) as [big|]; [|done]. cbn [mbind result_bind].
  assert (∀ x, qc 3 10 ≤ num_val (py_max (NFloat (qc 3 10)) (py_min (NFloat (qc 95 100)) (NFloat x)))
               ≤ qc 95 100) as Hc.
  { intros x. rewrite py_max_val, py_min_val. split; [apply qmax_lower_l|].
    apply qmax_lub; [done | apply qmin_upper_l]. }
  destruct big; cbn [mbind result_bind mret result_ret].
  - intros E%Ok_inj. rewrite <- E. apply Hc.
  - destruct (py_lt _ _ _) as [small|]; [|done]. cbn [mbind result_bind mret result_ret].
    intros E%Ok_inj. rewrite <- E. apply Hc.
Qed.

End Confidence.

(** ** [predict_improvements] as a whole *)

Section Engine.

Variable rnd : Qc → Qc.
Variable random : nat → Qc.

Lemma set_is_trained_id (m : model) :
  is_trained m = true → set_is_trained true m = m.
Proof. destruct m. cbn. by intros ->. Qed.

Lemma ensure_trained_spec d w :
  ∃ l, run (ensure_trained rnd random d) w
       = (Ok tt, mk_world (set_is_trained true (self w)) (rng_pos w) (files w)
                   (log w ++ l)).
Proof.
  destruct (is_trained (self w)) eqn:E.
  - exists []. rewrite ensure_trained_trained, set_is_trained_id, app_nil_r by done.
    by destruct w.
  - eexists. by apply ensure_trained_untrained.
Qed.

(** The record returned: what the [try] block computes, or the fixed
    fallback when it raises. *)
Lemma predict_improvements_fst d w :
  fst (run (predict_improvements rnd random d) w)
  = Ok match predict_try_value rnd random (benchmarks (self w)) (rng_pos w) d with
       | Ok out => out
       | Raise _ => default_fallback
       end.
Proof.
  unfold predict_improvements. rewrite run_bind.
  destruct (ensure_trained_spec d w) as [l ->]. rewrite run_try_except.
  match goal with |- context [run (predict_try rnd random d) ?w1] =>
    pose proof (predict_try_value_correct rnd random d w1) as Hv;
    destruct (run (predict_try rnd random d) w1) as [[out|e] w2]
  end; cbn in Hv; rewrite <- Hv; done.
Qed.



(** Whatever the [try] block returns is a record of clamped
    improvements and a clamped confidence. *)
Lemma predict_try_value_inv (bm : gmap string pyval) (pos : nat) (d out : gmap string pyval) :
  predict_try_value rnd random bm pos d = Ok out →
  ∃ o c v conf,
    out = rule_based_predictions (clamp 5 45 o) (clamp 8 60 c) (clamp 10 80 v) conf
    ∧ qc 3 10 ≤ conf ≤ qc 95 100.
Proof.
  unfold predict_try_value.
  destruct (gap rnd bm d "open_rate") as [og|]; [|done]. cbn [mbind result_bind].
  destruct (gap rnd bm d "click_rate") as [cg|]; [|done]. cbn [mbind result_bind].
  destruct (gap rnd bm d "conversion_rate") as [vg|]; [|done]. cbn [mbind result_bind].
  destruct (industry_multiplier d) as [m|]; [|done]. cbn [mbind result_bind].
  destruct (size_adjustment d) as [s|]; [|done]. cbn [mbind result_bind].
  destruct (improvement_value rnd 5 45 _ _ _ _ _ _) as [o|] eqn:Eo; [|done].
  cbn [mbind result_bind].
  destruct (improvement_value rnd 8 60 _ _ _ _ _ _) as [c|] eqn:Ec; [|done].
  cbn [mbind result_bind].
  destruct (improvement_value rnd 10 80 _ _ _ _ _ _) as [v|] eqn:Ev; [|done].
  cbn [mbind result_bind].
  destruct (calculate_confidence rnd d) as [conf|] eqn:E; [|done].
  cbn [mbind result_bind mret result_ret]. intros <-%Ok_inj.
  apply improvement_value_inv in Eo as [o' ->].
  apply improvement_value_inv in Ec as [c' ->].
  apply improvement_value_inv in Ev as [v' ->].
  do 4 eexists. split; [done|].
  by apply (calculate_confidence_bounds rnd d).
Qed.

Lemma well_formed_fields (d : gmap string pyval) :
  well_formed d = true →
  forallb (numeric_or_absent d) required_fields = true
  ∧ rate_or_absent d "open_rate" = true
  ∧ rate_or_absent d "click_rate" = true
  ∧ rate_or_absent d "conversion_rate" = true
  ∧ hashable_or_absent d "target_industry" = true
  ∧ hashable_or_absent d "target_company_size" = true.
Proof.
  unfold well_formed. intros [[[He Hr]%andb_prop Hi]%andb_prop Hs]%andb_prop.
  cbn in Hr.
  apply andb_prop in Hr as [Ho Hr]. apply andb_prop in Hr as [Hc Hr].
  apply andb_prop in Hr as [Hv _].
  split_and!; try done.
  cbn. by rewrite He, !rate_is_numeric.
Qed.

Lemma well_formed_rate (d : gmap string pyval) (metric : string) :
  well_formed d = true → metric ∈ metrics → rate_or_absent d metric = true.
Proof.
  intros (_ & Ho & Hc & Hv & _)%well_formed_fields.
  unfold metrics. rewrite !elem_of_cons, elem_of_nil.
  by intros [-> | [-> | [-> | []]]].
Qed.

(** On well-formed input no step of the [try] block raises, and each
    step computes what the specification says. *)
Lemma predict_try_value_well_formed (pos : nat) (d : gmap string pyval) :
  well_formed d = true →
  predict_try_value rnd random init_benchmarks pos d
  = Ok (rule_based_predictions
          (clamp 5 45
             (NFloat (Spec.raw_improvement rnd (Spec.gap rnd "open_rate" d)
                        (Spec.multiplier d) (Spec.size_adjustment d)
                        (Spec.jitter rnd (qc 8 10) (qc 12 10) (random pos)))))
          (clamp 8 60
             (NFloat (Spec.raw_improvement rnd (Spec.gap rnd "click_rate" d)
                        (Spec.multiplier d) (Spec.size_adjustment d)
                        (Spec.jitter rnd (qc 7 10) (qc 13 10) (random (S pos))))))
          (clamp 10 80
             (NFloat (Spec.raw_improvement rnd (Spec.gap rnd "conversion_rate" d)
                        (Spec.multiplier d) (Spec.size_adjustment d)
                        (Spec.jitter rnd (qc 6 10) (qc 14 10) (random (S (S pos)))))))
          (Spec.confidence rnd d)).
Proof.
  intros (Hn & Ho & Hc & Hv & Hi & Hs)%well_formed_fields.
  destruct (gap_spec rnd d "open_rate") as (og & Hog & <- & Hog');
    [repeat constructor | done |].
  destruct (gap_spec rnd d "click_rate") as (cg & Hcg & <- & Hcg');
    [repeat constructor | done |].
  destruct (gap_spec rnd d "conversion_rate") as (vg & Hvg & <- & Hvg');
    [repeat constructor | done |].
  unfold predict_try_value.
  rewrite Hog, Hcg, Hvg, industry_multiplier_spec, size_adjustment_spec,
    calculate_confidence_spec by done.
  cbn [mbind result_bind]. rewrite !improvement_value_spec by done.
  reflexivity.
Qed.

(** The fields of the record that the [try] block returns on
    well-formed input, as the specification's formulas. *)
Lemma predict_improvements_well_formed (d : gmap string pyval) (w : world) :
  benchmarks (self w) = init_benchmarks →
  well_formed d = true →
  ∃ out, fst (run (predict_improvements rnd random d) w) = Ok out
    ∧ field_value out "open_rate_improvement"
      = Some (Spec.improvement rnd 5 45 (Spec.gap rnd "open_rate" d)
                (Spec.multiplier d) (Spec.size_adjustment d)
                (Spec.jitter rnd (qc 8 10) (qc 12 10) (random (rng_pos w))))
    ∧ field_value out "click_rate_improvement"
      = Some (Spec.improvement rnd 8 60 (Spec.gap rnd "click_rate" d)
                (Spec.multiplier d) (Spec.size_adjustment d)
                (Spec.jitter rnd (qc 7 10) (qc 13 10) (random (S (rng_pos w)))))
    ∧ field_value out "conversion_rate_improvement"
      = Some (Spec.improvement rnd 10 80 (Spec.gap rnd "conversion_rate" d)
                (Spec.multiplier d) (Spec.size_adjustment d)
                (Spec.jitter rnd (qc 6 10) (qc 14 10) (random (S (S (rng_pos w))))))
    ∧ field_value out "confidence_score" = Some (round_qc (Spec.confidence rnd d) 2)
    ∧ out !! "prediction_method" = Some (PStr "rule_based_with_statistics").
Proof.
  intros Hb Hwf. rewrite predict_improvements_fst, Hb.
  rewrite (predict_try_value_well_formed (rng_pos w) d Hwf).
  eexists. split; [done|]. rewrite <- !improvement_val.
  split_and!; try done; by apply field_value_num.
Qed.

Lemma predict_improvements_dom (d : gmap string pyval) (w : world) :
  ∃ out, fst (run (predict_improvements rnd random d) w) = Ok out ∧ dom out = prediction_keys.
Proof.
  rewrite predict_improvements_fst.
  destruct (predict_try_value _ _ _ _ _) as [out|e] eqn:E.
  - apply predict_try_value_inv in E as (o & c & v & conf & -> & _).
    eexists. split; [done|]. apply rule_based_predictions_dom.
  - eexists. split; [done|]. apply default_fallback_dom.
Qed.

(** ** Metrics at or above their benchmarks *)

Lemma spec_gap_zero (d : gmap string pyval) (metric : string) :
  nearest rnd →
  Spec.benchmark metric ≤ current d metric → Spec.gap rnd metric d = 0.
Proof.
  intros Hrnd H. unfold Spec.gap, qmax.
  destruct (Qcltb 0 _) eqn:E; [|done]. apply Qcltb_lt in E.
  pose proof (fsub_nonpos rnd Hrnd _ _ H) as H'.
  exfalso. by apply (Qcle_not_lt _ _ H').
Qed.

Lemma gap_zero (d : gmap string pyval) (metric : string) :
  nearest rnd →
  metric ∈ metrics →
  rate_or_absent d metric = true →
  Spec.benchmark metric ≤ current d metric →
  gap rnd init_benchmarks d metric = Ok (NInt 0).
Proof.
  intros Hrnd Hm Hn Hle.
  rewrite (gap_value _ _ _ _ _ (init_benchmarks_lookup metric Hm) Hn).
  unfold py_max. cbn [num_val].
  assert (Qcltb (Qc_of_Z 0) (fsub rnd (Spec.benchmark metric) (current d metric)) = false)
    as ->; [|done].
  apply Qcltb_ge. rewrite Qc_of_Z_0. by apply fsub_nonpos.
Qed.

Lemma clamp_zero (lo hi : Z) : (0 < lo)%Z → (lo ≤ hi)%Z → clamp lo hi (NFloat 0) = NInt lo.
Proof.
  intros Hlo Hhi. unfold clamp.
  assert (py_max (NInt lo) (NFloat 0) = NInt lo) as ->.
  { unfold py_max. cbn [num_val].
    assert (Qcltb (Qc_of_Z lo) 0 = false) as ->; [|done].
    apply Qcltb_ge. rewrite <- Qc_of_Z_0. apply Qc_of_Z_le. lia. }
  unfold py_min. destruct (Qcltb _ _) eqn:E; [done|].
  apply Qcltb_ge in E. unfold Qcle in E. cbn in E. rewrite <- Zle_Qle in E.
  f_equal. lia.
Qed.

Lemma raw_improvement_zero (m s j : Qc) :
  nearest rnd → Spec.raw_improvement rnd 0 m s j = 0.
Proof. intros Hrnd. unfold Spec.raw_improvement. by rewrite !fmul_zero. Qed.

(** At or above every benchmark nothing but the floors comes out. *)
Lemma floors_when_above (d : gmap string pyval) (w : world) :
  nearest rnd →
  benchmarks (self w) = init_benchmarks →
  well_formed d = true →
  (∀ metric, metric ∈ metrics → Spec.benchmark metric ≤ current d metric) →
  gap rnd init_benchmarks d "open_rate" = Ok (NInt 0)
  ∧ gap rnd init_benchmarks d "click_rate" = Ok (NInt 0)
  ∧ gap rnd init_benchmarks d "conversion_rate" = Ok (NInt 0)
  ∧ ∃ out, fst (run (predict_improvements rnd random d) w) = Ok out
      ∧ out !! "open_rate_improvement" = Some (PInt 5)
      ∧ out !! "click_rate_improvement" = Some (PInt 8)
      ∧ out !! "conversion_rate_improvement" = Some (PInt 10).
Proof.
  intros Hrnd Hb Hwf Habove.
  assert (∀ metric, metric ∈ metrics → gap rnd init_benchmarks d metric = Ok (NInt 0)) as Hg.
  { intros metric Hm. apply gap_zero; [done | done | by apply well_formed_rate | by apply Habove]. }
  assert (∀ metric, metric ∈ metrics → Spec.gap rnd metric d = 0) as Hs.
  { intros metric Hm. by apply spec_gap_zero, Habove. }
  split; [apply Hg; repeat constructor|].
  split; [apply Hg; repeat constructor|].
  split; [apply Hg; repeat constructor|].
  rewrite predict_improvements_fst, Hb.
  rewrite (predict_try_value_well_formed (rng_pos w) d Hwf).
  rewrite !Hs by repeat constructor.
  rewrite !raw_improvement_zero by done. rewrite !clamp_zero by lia.
  eexists. split; [done|]. split_and!; done.
Qed.

(** ** Missing fields *)

Lemma dict_get_insert_default (d : gmap string pyval) (key k : string) (x dflt : pyval) :
  d !! key = None → (k = key → x = dflt) →
  dict_get (<[key := x]> d) k dflt = dict_get d k dflt.
Proof.
  intros Hnone Hx. unfold dict_get. destruct (decide (k = key)) as [->|Hne].
  - by rewrite lookup_insert_eq, Hnone, Hx.
  - by rewrite lookup_insert_ne.
Qed.

Lemma ensure_trained_indep (d d' : gmap string pyval) (w : world) :
  run (ensure_trained rnd random d) w = run (ensure_trained rnd random d') w.
Proof.
  destruct (is_trained (self w)) eqn:E.
  - by rewrite !ensure_trained_trained.
  - by rewrite !ensure_trained_untrained.
Qed.

Lemma predict_try_ext (d d' : gmap string pyval) (w : world) :
  same_reads d d' → run (predict_try rnd random d) w = run (predict_try rnd random d') w.
Proof.
  intros (Hn & Hi & Hs).
  assert (dict_get d "emails_sent" (PInt 0) = dict_get d' "emails_sent" (PInt 0)) as He
    by (apply Hn; repeat constructor).
  assert (dict_get d "open_rate" (PInt 0) = dict_get d' "open_rate" (PInt 0)) as Ho
    by (apply Hn; repeat constructor).
  assert (dict_get d "click_rate" (PInt 0) = dict_get d' "click_rate" (PInt 0)) as Hc
    by (apply Hn; repeat constructor).
  assert (dict_get d "conversion_rate" (PInt 0) = dict_get d' "conversion_rate" (PInt 0))
    as Hv by (apply Hn; repeat constructor).
  unfold predict_try, gap, industry_multiplier, size_adjustment, calculate_confidence,
    required_fields.
  cbn [count_positive]. by rewrite He, Ho, Hc, Hv, Hi, Hs.
Qed.

Lemma predict_improvements_ext (d d' : gmap string pyval) (w : world) :
  same_reads d d' →
  run (predict_improvements rnd random d) w = run (predict_improvements rnd random d') w.
Proof.
  intros H. unfold predict_improvements.
  rewrite !run_bind, (ensure_trained_indep d d').
  destruct (run (ensure_trained rnd random d') w) as [[[]|e] w1]; [|done].
  by rewrite !run_try_except, (predict_try_ext d d').
Qed.

Lemma same_reads_insert (d : gmap string pyval) (key : string) (x : pyval) :
  d !! key = None →
  (key ∈ required_fields → x = PInt 0) →
  (key = "target_industry" → x = PStr "Unknown") →
  (key = "target_company_size" → x = PStr "Unknown") →
  same_reads (<[key := x]> d) d.
Proof.
  intros Hnone Hn Hi Hs. split_and!.
  - intros k Hk. apply dict_get_insert_default; [done|]. intros ->. by apply Hn.
  - apply dict_get_insert_default; [done|]. intros E. by apply Hi.
  - apply dict_get_insert_default; [done|]. intros E. by apply Hs.
Qed.

Lemma required_not_categorical (key : string) :
  key ∈ required_fields → key ≠ "target_industry" ∧ key ≠ "target_company_size".
Proof.
  unfold required_fields. rewrite !elem_of_cons, elem_of_nil.
  intros [-> | [-> | [-> | [-> | []]]]]; done.
Qed.

(** The gap of a missing metric is its benchmark. *)
Lemma spec_gap_missing (d : gmap string pyval) (metric : string) :
  nearest rnd →
  d !! metric = None → Spec.gap rnd metric d = Spec.benchmark metric.
Proof.
  intros Hrnd Hnone. unfold Spec.gap.
  rewrite (current_missing d metric Hnone), (fsub_zero rnd Hrnd) by by apply rnd_benchmark.
  unfold Spec.benchmark. by repeat destruct (String.eqb _ _).
Qed.

(** The benchmark is the largest gap a rate that is not negative can
    leave. *)
Lemma spec_gap_le_benchmark (d : gmap string pyval) (metric : string) :
  nearest rnd →
  0 ≤ current d metric → Spec.gap rnd metric d ≤ Spec.benchmark metric.
Proof.
  intros Hrnd Hc. unfold Spec.gap. apply qmax_lub.
  - unfold Spec.benchmark. repeat destruct (String.eqb _ _); compute_done.
  - unfold fsub. rewrite <- (rnd_benchmark rnd Hrnd metric) at 2.
    rewrite <- (rnd_idem rnd Hrnd (Spec.benchmark metric)) at 2.
    apply (rnd_mono rnd Hrnd). pose proof (rnd_nonneg rnd Hrnd _ Hc) as Hc'.
    revert Hc'. unfold Qcle. cbn. rewrite !Qred_correct. intros. lra.
Qed.

Lemma gap_missing (d : gmap string pyval) (metric : string) :
  nearest rnd →
  metric ∈ metrics →
  d !! metric = None →
  gap rnd init_benchmarks d metric = Ok (NFloat (Spec.benchmark metric)).
Proof.
  intros Hrnd Hm Hnone.
  rewrite (gap_value _ _ _ _ _ (init_benchmarks_lookup metric Hm)).
  - rewrite (current_missing d metric Hnone), (fsub_zero rnd Hrnd) by by apply rnd_benchmark.
    unfold Spec.benchmark. by repeat destruct (String.eqb _ _).
  - unfold rate_or_absent. by rewrite Hnone.
Qed.

End Engine.

(** ** [binary64] is a rounding to the nearest double *)

Lemma Qc_eq_Qeq (x y : Qc) : x = y → (this x == this y)%Q.
Proof. by intros ->. Qed.

(** Read a goal on [Qc], and the hypotheses named, in [Q]. *)
Ltac in_Q :=
  unfold Qcle, Qclt in *;
  cbn [this Qcplus Qcmult Qcminus Qcopp Q2Qc] in *;
  rewrite ?Qred_correct in *.

Lemma pow2_pos (e : Z) : 0 < pow2 e.
Proof. unfold pow2, Qclt. cbn [this Q2Qc]. rewrite !Qred_correct. by apply Qpower_0_lt. Qed.

Lemma pow2_neq_0 (e : Z) : pow2 e ≠ 0.
Proof. pose proof (pow2_pos e) as H. intros E. rewrite E in H. by apply Qclt_not_eq in H. Qed.

Lemma pow2_add (a b : Z) : pow2 (a + b) = pow2 a * pow2 b.
Proof.
  apply Qc_is_canon. unfold pow2. cbn [this Q2Qc Qcmult]. rewrite !Qred_correct.
  by apply Qpower_plus.
Qed.

Lemma pow2_le (a b : Z) : (a ≤ b)%Z → pow2 a ≤ pow2 b.
Proof.
  intros H. unfold pow2, Qcle. cbn [this Q2Qc]. rewrite !Qred_correct.
  by apply Qpower_le_compat_l.
Qed.

Lemma pow2_lt (a b : Z) : (a < b)%Z → pow2 a < pow2 b.
Proof.
  intros H. unfold pow2, Qclt. cbn [this Q2Qc]. rewrite !Qred_correct.
  by apply Qpower_lt_compat_l.
Qed.

Lemma pow2_lt_inv (a b : Z) : pow2 a < pow2 b → (a < b)%Z.
Proof.
  unfold pow2, Qclt. cbn [this Q2Qc]. rewrite !Qred_correct. intros H.
  by apply (Qpower_lt_compat_l_inv 2).
Qed.

Lemma pow2_Z (e : Z) : (0 ≤ e)%Z → pow2 e = Qc_of_Z (2 ^ e).
Proof.
  intros H. apply Qc_is_canon. unfold pow2. cbn [this Q2Qc Qc_of_Z]. rewrite Qred_correct.
  symmetry. by apply Zpower_Qpower.
Qed.

Lemma pow2_div (a b : Z) : pow2 a / pow2 b = pow2 (a - b).
Proof.
  assert (a = (a - b) + b)%Z as E by lia. rewrite E at 1. rewrite pow2_add.
  field. apply pow2_neq_0.
Qed.

Lemma Qc_of_Z_lt (a b : Z) : (a < b)%Z → Qc_of_Z a < Qc_of_Z b.
Proof. intros H. unfold Qclt. cbn. by rewrite <- Zlt_Qlt. Qed.

Lemma Qc_of_Z_le_inv (a b : Z) : Qc_of_Z a ≤ Qc_of_Z b → (a ≤ b)%Z.
Proof. unfold Qcle. cbn. by rewrite <- Zle_Qle. Qed.

Lemma Qc_num_den (q : Qc) : q * Qc_of_Z (Zpos (Qden q)) = Qc_of_Z (Qnum q).
Proof.
  apply Qc_is_canon. cbn. rewrite Qred_correct. unfold Qeq. cbn. lia.
Qed.

(** The exponent of a positive rational. *)
Lemma ilog2_spec (q : Qc) : 0 < q → pow2 (ilog2 q) ≤ q ∧ q < pow2 (ilog2 q + 1).
Proof.
  intros Hq. unfold ilog2. cbv zeta.
  pose proof (Qc_num_den q) as Hqd.
  set (n := Qnum q) in *. set (d := Zpos (Qden q)) in *.
  assert (0 < n)%Z as Hn.
  { rewrite <- Qc_of_Z_0 in Hq. revert Hq. unfold Qclt, Qlt. cbn. fold n. lia. }
  assert (0 < d)%Z as Hd by done.
  assert (0 < Qc_of_Z d) as Hd'.
  { rewrite <- Qc_of_Z_0. by apply Qc_of_Z_lt. }
  destruct (Z.log2_spec n Hn) as [Hn1 Hn2].
  destruct (Z.log2_spec d Hd) as [Hd1 Hd2].
  set (a := Z.log2 n) in *. set (b := Z.log2 d) in *.
  assert (0 ≤ a)%Z as Ha by apply Z.log2_nonneg.
  assert (0 ≤ b)%Z as Hb by apply Z.log2_nonneg.
  apply Qc_of_Z_le in Hn1, Hd1. apply Qc_of_Z_lt in Hn2, Hd2.
  rewrite <- !pow2_Z in Hn1, Hn2, Hd1, Hd2 by lia.
  replace (Z.succ a) with (a + 1)%Z in Hn2 by lia.
  replace (Z.succ b) with (b + 1)%Z in Hd2 by lia.
  assert (pow2 (a - b - 1) < q) as Hlo.
  { pose proof (pow2_add (a - b - 1) (b + 1)) as E.
    replace (a - b - 1 + (b + 1))%Z with a in E by lia.
    pose proof (pow2_pos (a - b - 1)) as Hp.
    apply Qcnot_le_lt. intros Hc.
    apply Qc_eq_Qeq in E, Hqd. in_Q. nra. }
  assert (q < pow2 (a - b + 1)) as Hhi.
  { pose proof (pow2_add (a - b + 1) b) as E.
    replace (a - b + 1 + b)%Z with (a + 1)%Z in E by lia.
    pose proof (pow2_pos (a - b + 1)) as Hp.
    apply Qcnot_le_lt. intros Hc.
    apply Qc_eq_Qeq in E, Hqd. in_Q. nra. }
  destruct (Qcltb q (pow2 (a - b))) eqn:E.
  - apply Qcltb_lt in E. split; [by apply Qclt_le_weak|].
    by replace (a - b - 1 + 1)%Z with (a - b)%Z by lia.
  - apply Qcltb_ge in E. done.
Qed.

Lemma ilog2_unique (q : Qc) (e : Z) : pow2 e ≤ q → q < pow2 (e + 1) → ilog2 q = e.
Proof.
  intros Hlo Hhi.
  assert (0 < q) as Hq by (apply Qclt_le_trans with (pow2 e); [apply pow2_pos | done]).
  destruct (ilog2_spec q Hq) as [Hlo' Hhi'].
  assert (ilog2 q < e + 1)%Z.
  { apply pow2_lt_inv. by apply Qcle_lt_trans with q. }
  assert (e < ilog2 q + 1)%Z.
  { apply pow2_lt_inv. by apply Qcle_lt_trans with q. }
  lia.
Qed.

Lemma ilog2_mono (x y : Qc) : 0 < x → x ≤ y → (ilog2 x ≤ ilog2 y)%Z.
Proof.
  intros Hx Hxy.
  assert (0 < y) as Hy by by apply Qclt_le_trans with x.
  destruct (ilog2_spec x Hx) as [Hx1 _]. destruct (ilog2_spec y Hy) as [_ Hy2].
  assert (ilog2 x < ilog2 y + 1)%Z; [|lia].
  apply pow2_lt_inv. apply Qcle_lt_trans with x; [done|].
  by apply Qcle_lt_trans with y.
Qed.

(** Read the outcome of a comparison as the order it states. *)
Ltac compare_in H :=
  first [ apply Qceq_alt in H; apply Qc_eq_Qeq in H
        | apply Qclt_alt in H
        | apply Qcgt_alt in H ].

(** Rounding half to even keeps the order. *)
Lemma round_half_even_mono (x y : Qc) : x ≤ y → (round_half_even x ≤ round_half_even y)%Z.
Proof.
  intros Hxy. pose proof (Qfloor_resp_le _ _ Hxy) as Hf.
  destruct (decide (Qfloor x = Qfloor y)) as [E|NE].
  - unfold round_half_even. cbv zeta. rewrite E.
    destruct (x - Qc_of_Z (Qfloor y) ?= qc 1 2) eqn:Ex;
      destruct (y - Qc_of_Z (Qfloor y) ?= qc 1 2) eqn:Ey;
      try (destruct (Z.even (Qfloor y))); try lia; exfalso;
      compare_in Ex; compare_in Ey; in_Q; lra.
  - destruct (round_half_even_cases x) as [-> | [-> _]];
      destruct (round_half_even_cases y) as [-> | [-> _]]; lia.
Qed.

Lemma pow2_0 : pow2 0 = 1.
Proof. by apply Qc_is_canon. Qed.

Lemma Qcdiv_pow2 (q : Qc) (e : Z) : q / pow2 e = q * pow2 (- e).
Proof.
  pose proof (pow2_add (- e) e) as H. replace (- e + e)%Z with 0%Z in H by lia.
  rewrite pow2_0 in H. pose proof (pow2_neq_0 e) as Hne.
  assert (pow2 (- e) = / pow2 e) as ->; [|done].
  transitivity (pow2 (- e) * pow2 e * / pow2 e); [by field | rewrite <- H; ring].
Qed.

Lemma Qc_of_Z_pow2 (e : Z) : (0 ≤ e)%Z → Qc_of_Z (2 ^ e) = pow2 e.
Proof. intros H. by rewrite pow2_Z. Qed.

(** ** The magnitude *)

Lemma round_magnitude_eq (q : Qc) :
  round_magnitude q
  = Qc_of_Z (round_half_even (q * pow2 (52 - Z.max (ilog2 q) (-1022))))
    * pow2 (Z.max (ilog2 q) (-1022) - 52).
Proof.
  unfold round_magnitude. cbv zeta. rewrite Qcdiv_pow2.
  by replace (- (Z.max (ilog2 q) (-1022) - 52))%Z with (52 - Z.max (ilog2 q) (-1022))%Z by lia.
Qed.

Lemma Qcmult_le_compat_pow2 (x y : Qc) (e : Z) : x ≤ y → x * pow2 e ≤ y * pow2 e.
Proof.
  intros H. apply Qcmult_le_compat_r; [done|]. apply Qclt_le_weak, pow2_pos.
Qed.

(** The double nearest to a positive rational lies between the powers
    of two around it. *)
Lemma round_magnitude_bounds (q : Qc) :
  0 < q →
  0 ≤ round_magnitude q
  ∧ round_magnitude q ≤ pow2 (Z.max (ilog2 q) (-1022) + 1)
  ∧ ((-1022 ≤ ilog2 q)%Z → pow2 (ilog2 q) ≤ round_magnitude q).
Proof.
  intros Hq. destruct (ilog2_spec q Hq) as [Hlo Hhi]. rewrite round_magnitude_eq.
  set (e := Z.max (ilog2 q) (-1022)).
  pose proof (pow2_pos (e - 52)) as Hu.
  split_and!.
  - assert (0 ≤ round_half_even (q * pow2 (52 - e)))%Z as H.
    { apply round_half_even_lower. rewrite Qc_of_Z_0.
      rewrite <- (Qcmult_0_l (pow2 (52 - e))).
      by apply Qcmult_le_compat_pow2, Qclt_le_weak. }
    apply Qc_of_Z_le in H. rewrite Qc_of_Z_0 in H.
    rewrite <- (Qcmult_0_l (pow2 (e - 52))). by apply Qcmult_le_compat_pow2.
  - assert (round_half_even (q * pow2 (52 - e)) ≤ 2 ^ 53)%Z as H.
    { apply round_half_even_upper. rewrite Qc_of_Z_pow2 by lia.
      replace 53%Z with (e + 1 + (52 - e))%Z by lia. rewrite pow2_add.
      apply Qcmult_le_compat_pow2, Qclt_le_weak.
      apply Qclt_le_trans with (pow2 (ilog2 q + 1)); [done|]. apply pow2_le. lia. }
    apply Qc_of_Z_le in H. rewrite Qc_of_Z_pow2 in H by lia.
    replace (e + 1)%Z with (53 + (e - 52))%Z by lia. rewrite pow2_add.
    by apply Qcmult_le_compat_pow2.
  - intros Hn. assert (e = ilog2 q) as He by lia. rewrite <- He in *.
    assert (2 ^ 52 ≤ round_half_even (q * pow2 (52 - e)))%Z as H.
    { apply round_half_even_lower. rewrite Qc_of_Z_pow2 by lia.
      replace 52%Z with (e + (52 - e))%Z at 1 by lia. rewrite pow2_add.
      by apply Qcmult_le_compat_pow2. }
    apply Qc_of_Z_le in H. rewrite Qc_of_Z_pow2 in H by lia.
    replace e with (52 + (e - 52))%Z at 1 by lia. rewrite pow2_add.
    by apply Qcmult_le_compat_pow2.
Qed.

(** Rounding magnitudes keeps their order. *)
Lemma round_magnitude_mono (x y : Qc) :
  0 < x → x ≤ y → round_magnitude x ≤ round_magnitude y.
Proof.
  intros Hx Hxy.
  assert (0 < y) as Hy by by apply Qclt_le_trans with x.
  pose proof (ilog2_mono x y Hx Hxy) as He.
  destruct (round_magnitude_bounds x Hx) as (_ & Hxhi & _).
  destruct (round_magnitude_bounds y Hy) as (_ & _ & Hylo).
  destruct (decide (Z.max (ilog2 x) (-1022) = Z.max (ilog2 y) (-1022))) as [E|NE].
  - rewrite !round_magnitude_eq, E.
    apply Qcmult_le_compat_pow2, Qc_of_Z_le, round_half_even_mono.
    by apply Qcmult_le_compat_pow2.
  - apply Qcle_trans with (pow2 (Z.max (ilog2 x) (-1022) + 1)); [done|].
    apply Qcle_trans with (pow2 (ilog2 y)); [apply pow2_le; lia | apply Hylo; lia].
Qed.

(** A significand of at most 53 bits at an exponent of the doubles is
    rounded to itself. *)
Lemma round_magnitude_fix (m e : Z) :
  (0 < m ≤ 2 ^ 53)%Z → (-1022 ≤ e)%Z → (2 ^ 52 ≤ m ∨ e = -1022)%Z →
  round_magnitude (Qc_of_Z m * pow2 (e - 52)) = Qc_of_Z m * pow2 (e - 52).
Proof.
  intros [Hm0 Hm1] He Hn. set (q := Qc_of_Z m * pow2 (e - 52)).
  assert (q < pow2 (e + 1) ∨ m = (2 ^ 53)%Z) as [Hlt | ->].
  { destruct (decide (m = 2 ^ 53)%Z) as [->|Hne]; [by right | left].
    unfold q. replace (e + 1)%Z with (53 + (e - 52))%Z by lia. rewrite pow2_add.
    apply Qcmult_lt_compat_r; [apply pow2_pos|].
    rewrite <- Qc_of_Z_pow2 by lia. apply Qc_of_Z_lt. lia. }
  - assert (Z.max (ilog2 q) (-1022) = e) as E.
    { destruct Hn as [Hn | ->].
      - rewrite (ilog2_unique q e); [lia | | done].
        unfold q. replace e with (52 + (e - 52))%Z at 1 by lia. rewrite pow2_add.
        apply Qcmult_le_compat_pow2. rewrite <- Qc_of_Z_pow2 by lia. by apply Qc_of_Z_le.
      - assert (0 < q) as Hq.
        { unfold q. rewrite <- (Qcmult_0_l (pow2 (-1022 - 52))).
          apply Qcmult_lt_compat_r; [apply pow2_pos|].
          rewrite <- Qc_of_Z_0. by apply Qc_of_Z_lt. }
        destruct (ilog2_spec q Hq) as [Hlo _].
        assert (ilog2 q < -1022 + 1)%Z; [|lia].
        apply pow2_lt_inv. by apply Qcle_lt_trans with q. }
    rewrite round_magnitude_eq, E. unfold q at 1.
    rewrite <- Qcmult_assoc, <- pow2_add.
    replace (e - 52 + (52 - e))%Z with 0%Z by lia.
    by rewrite pow2_0, Qcmult_1_r, round_half_even_Z.
  - assert (q = pow2 (e + 1)) as Hq.
    { unfold q. rewrite Qc_of_Z_pow2 by lia. rewrite <- pow2_add. f_equal. lia. }
    assert (ilog2 q = e + 1)%Z as E.
    { apply ilog2_unique; rewrite Hq; [done|]. apply pow2_lt. lia. }
    rewrite round_magnitude_eq, E.
    replace (Z.max (e + 1) (-1022)) with (e + 1)%Z by lia. rewrite Hq at 1.
    rewrite <- pow2_add. replace (e + 1 + (52 - (e + 1)))%Z with 52%Z by lia.
    rewrite <- Qc_of_Z_pow2, round_half_even_Z by lia.
    rewrite Hq, Qc_of_Z_pow2, <- pow2_add by lia. f_equal. lia.
Qed.


Lemma significand_bounds (q : Qc) :
  0 < q →
  (0 ≤ round_half_even (q * pow2 (52 - Z.max (ilog2 q) (-1022))) ≤ 2 ^ 53)%Z
  ∧ ((-1022 ≤ ilog2 q)%Z →
     (2 ^ 52 ≤ round_half_even (q * pow2 (52 - Z.max (ilog2 q) (-1022))))%Z).
Proof.
  intros Hq. destruct (ilog2_spec q Hq) as [Hlo Hhi].
  set (e := Z.max (ilog2 q) (-1022)).
  split_and!.
  - apply round_half_even_lower. rewrite Qc_of_Z_0.
    rewrite <- (Qcmult_0_l (pow2 (52 - e))).
    by apply Qcmult_le_compat_pow2, Qclt_le_weak.
  - apply round_half_even_upper. rewrite Qc_of_Z_pow2 by lia.
    replace 53%Z with (e + 1 + (52 - e))%Z by lia. rewrite pow2_add.
    apply Qcmult_le_compat_pow2, Qclt_le_weak.
    apply Qclt_le_trans with (pow2 (ilog2 q + 1)); [done|]. apply pow2_le. lia.
  - intros Hn. assert (e = ilog2 q) as He by lia. rewrite <- He in *.
    apply round_half_even_lower. rewrite Qc_of_Z_pow2 by lia.
    replace 52%Z with (e + (52 - e))%Z at 1 by lia. rewrite pow2_add.
    by apply Qcmult_le_compat_pow2.
Qed.

(** ** Sign and magnitude *)

Lemma binary64_0 : binary64 0 = 0.
Proof. reflexivity. Qed.

Lemma binary64_pos (q : Qc) : 0 < q → binary64 q = round_magnitude q.
Proof.
  intros H. unfold binary64. destruct (q ?= 0) eqn:E; [| |done]; exfalso.
  - apply Qceq_alt in E. subst. by apply Qclt_not_eq in H.
  - apply Qclt_alt in E. in_Q. lra.
Qed.

Lemma binary64_neg (q : Qc) : q < 0 → binary64 q = - round_magnitude (- q).
Proof.
  intros H. unfold binary64. destruct (q ?= 0) eqn:E; [|done|]; exfalso.
  - apply Qceq_alt in E. subst. by apply Qclt_not_eq in H.
  - apply Qcgt_alt in E. in_Q. lra.
Qed.

Lemma Qcopp_0 : - 0 = 0.
Proof. by apply Qc_is_canon. Qed.

Lemma Qcopp_pos (q : Qc) : q < 0 → 0 < - q.
Proof. intros H. in_Q. lra. Qed.

Lemma Qcopp_neg (q : Qc) : 0 < q → - q < 0.
Proof. intros H. in_Q. lra. Qed.

(** The double nearest to a positive rational is 0 or a positive
    number that rounding leaves as it is. *)
Lemma round_magnitude_idem (q : Qc) :
  0 < q →
  round_magnitude q = 0
  ∨ (0 < round_magnitude q
     ∧ round_magnitude (round_magnitude q) = round_magnitude q).
Proof.
  intros Hq. destruct (significand_bounds q Hq) as ([Hs0 Hs1] & Hn).
  rewrite !(round_magnitude_eq q).
  set (e := Z.max (ilog2 q) (-1022)) in *.
  set (s := round_half_even (q * pow2 (52 - e))) in *.
  destruct (decide (s = 0%Z)) as [->|Hne].
  - left. by rewrite Qc_of_Z_0, Qcmult_0_l.
  - right. split.
    + rewrite <- (Qcmult_0_l (pow2 (e - 52))).
      apply Qcmult_lt_compat_r; [apply pow2_pos|].
      rewrite <- Qc_of_Z_0. apply Qc_of_Z_lt. lia.
    + apply round_magnitude_fix; [lia | lia |].
      destruct (decide (-1022 ≤ ilog2 q)%Z); [left; auto | right; lia].
Qed.

Lemma binary64_idem (x : Qc) : binary64 (binary64 x) = binary64 x.
Proof.
  destruct (Qc_dec x 0) as [[Hlt | Hgt] | ->]; [| |done].
  - rewrite (binary64_neg x Hlt).
    destruct (round_magnitude_idem (- x) (Qcopp_pos x Hlt)) as [-> | [Hp Hi]].
    + by rewrite Qcopp_0.
    + rewrite binary64_neg by by apply Qcopp_neg.
      by rewrite Qcopp_involutive, Hi.
  - rewrite (binary64_pos x Hgt).
    destruct (round_magnitude_idem x Hgt) as [-> | [Hp Hi]]; [done|].
    by rewrite binary64_pos, Hi.
Qed.

Lemma binary64_mono (x y : Qc) : x ≤ y → binary64 x ≤ binary64 y.
Proof.
  intros Hxy.
  destruct (Qc_dec x 0) as [[Hx | Hx] | ->]; destruct (Qc_dec y 0) as [[Hy | Hy] | ->].
  - rewrite (binary64_neg x Hx), (binary64_neg y Hy).
    apply Qcopp_le_compat, round_magnitude_mono; [by apply Qcopp_pos|].
    by apply Qcopp_le_compat.
  - rewrite (binary64_neg x Hx), (binary64_pos y Hy).
    destruct (round_magnitude_bounds (- x) (Qcopp_pos x Hx)) as (H1 & _).
    destruct (round_magnitude_bounds y Hy) as (H2 & _).
    in_Q. lra.
  - rewrite (binary64_neg x Hx).
    destruct (round_magnitude_bounds (- x) (Qcopp_pos x Hx)) as (H1 & _).
    change (binary64 0) with 0. in_Q. lra.
  - exfalso. in_Q. lra.
  - rewrite (binary64_pos x Hx), (binary64_pos y Hy). by apply round_magnitude_mono.
  - exfalso. in_Q. lra.
  - exfalso. in_Q. lra.
  - rewrite (binary64_pos y Hy).
    by destruct (round_magnitude_bounds y Hy) as (H2 & _).
  - done.
Qed.

(** A rational [n / 2^k] with [0 < n < 2^53] and [k <= 1022] is a
    double. *)
Lemma round_magnitude_dyadic (n : Z) (k : nat) :
  (0 < n < 2 ^ 53)%Z → (k ≤ 1022)%nat →
  round_magnitude (Qc_of_Z n / Qc_of_Z (2 ^ Z.of_nat k))
  = Qc_of_Z n / Qc_of_Z (2 ^ Z.of_nat k).
Proof.
  intros [Hn0 Hn1] Hk. rewrite Qc_of_Z_pow2, Qcdiv_pow2 by lia.
  destruct (Z.log2_spec n Hn0) as [Hl0 Hl1].
  pose proof (Z.log2_nonneg n) as Hl.
  set (l := Z.log2 n) in *.
  assert (l < 53)%Z as Hl53.
  { apply (Z.pow_lt_mono_r_iff 2); lia. }
  assert (Qc_of_Z n * pow2 (- Z.of_nat k)
          = Qc_of_Z (n * 2 ^ (52 - l)) * pow2 (l - Z.of_nat k - 52)) as ->.
  { rewrite Qc_of_Z_mul, Qc_of_Z_pow2, <- Qcmult_assoc, <- pow2_add by lia.
    do 2 f_equal. lia. }
  assert (2 ^ 52 = 2 ^ l * 2 ^ (52 - l))%Z as E52.
  { rewrite <- Z.pow_add_r by lia. f_equal. lia. }
  assert (2 ^ 53 = 2 ^ Z.succ l * 2 ^ (52 - l))%Z as E53.
  { rewrite <- Z.pow_add_r by lia. f_equal. lia. }
  assert (0 < 2 ^ (52 - l))%Z as Hp by (apply Z.pow_pos_nonneg; lia).
  apply round_magnitude_fix; [nia | lia | left; nia].
Qed.

Lemma Qcopp_div (x y : Qc) : - x / y = - (x / y).
Proof. unfold Qcdiv. ring. Qed.

Lemma Qc_of_Z_opp (z : Z) : Qc_of_Z (- z) = - Qc_of_Z z.
Proof. apply Qc_is_canon. cbn. rewrite Qred_correct. unfold Qeq. cbn. lia. Qed.

Lemma binary64_dyadic (n : Z) (k : nat) :
  (Z.abs n < 2 ^ 53)%Z → (k ≤ 1022)%nat →
  binary64 (Qc_of_Z n / Qc_of_Z (2 ^ Z.of_nat k)) = Qc_of_Z n / Qc_of_Z (2 ^ Z.of_nat k).
Proof.
  intros Hn Hk.
  assert (0 < / Qc_of_Z (2 ^ Z.of_nat k)) as Hp.
  { rewrite Qc_of_Z_pow2 by lia. rewrite <- (Qcmult_1_l (/ _)).
    fold (Qcdiv 1 (pow2 (Z.of_nat k))). rewrite Qcdiv_pow2, Qcmult_1_l. apply pow2_pos. }
  destruct (Z.lt_trichotomy n 0) as [Hneg | [-> | Hpos]].
  - assert (Qc_of_Z n / Qc_of_Z (2 ^ Z.of_nat k) < 0) as Hq.
    { unfold Qcdiv. rewrite <- (Qcmult_0_l (/ Qc_of_Z (2 ^ Z.of_nat k))).
      apply Qcmult_lt_compat_r; [done|]. rewrite <- Qc_of_Z_0. by apply Qc_of_Z_lt. }
    rewrite (binary64_neg _ Hq), <- Qcopp_div, <- Qc_of_Z_opp.
    rewrite round_magnitude_dyadic by lia.
    by rewrite Qc_of_Z_opp, Qcopp_div, Qcopp_involutive.
  - rewrite Qc_of_Z_0. unfold Qcdiv. by rewrite Qcmult_0_l.
  - assert (0 < Qc_of_Z n / Qc_of_Z (2 ^ Z.of_nat k)) as Hq.
    { unfold Qcdiv. rewrite <- (Qcmult_0_l (/ Qc_of_Z (2 ^ Z.of_nat k))).
      apply Qcmult_lt_compat_r; [done|]. rewrite <- Qc_of_Z_0. by apply Qc_of_Z_lt. }
    rewrite (binary64_pos _ Hq). apply round_magnitude_dyadic; [lia | done].
Qed.

(** [binary64] obeys the laws of rounding to the nearest double. *)
Lemma binary64_nearest : nearest binary64.
Proof.
  split.
  - apply binary64_mono.
  - apply binary64_idem.
  - apply binary64_dyadic.
Qed.

(** The widths 1.2 - 0.8, 1.3 - 0.7 and 1.4 - 0.6, taken between
    doubles, are doubles. *)
Lemma binary64_exact_widths : exact_widths binary64.
Proof.
  intros lo hi. unfold jitter_ranges. rewrite !elem_of_cons, elem_of_nil.
  intros [[= -> ->] | [[= -> ->] | [[= -> ->] | []]]]; compute_done.
Qed.

(** ** The claims *)

Section Predictions.

Variable rnd : Qc → Qc.
Variable random : nat → Qc.

(** C1. With the benchmarks of [__init__] (22.0, 3.5, 2.0), on every
    well-formed record: each improvement returned is the clamp, rounded
    to one decimal, of [gap * multiplier * size_adjustment * jitter] in
    float arithmetic, where [gap = max(0, benchmark - current)] and the
    jitter is what [random.uniform] makes of the next draw of
    [random.random()] for the metric's range. For a rounding that is to
    the nearest double: a metric at or above its benchmark has gap 0;
    each jitter lies between the doubles of the bounds of its range
    ([0.8, 1.2], [0.7, 1.3], [0.6, 1.4]) for every draw in [0, 1), and
    grows with the draw. The jitter is the affine image
    [lo + (hi - lo) * u] of the draw [u], up to rounding: uniform over
    its range as far as [random.random()] is over [0, 1). *)
Theorem predict_improvements_formula (d : gmap string pyval) (w : world) :
  benchmarks (self w) = init_benchmarks →
  well_formed d = true →
  (∃ out, fst (run (predict_improvements rnd random d) w) = Ok out
     ∧ field_value out "open_rate_improvement"
       = Some (Spec.improvement rnd 5 45 (Spec.gap rnd "open_rate" d)
                 (Spec.multiplier d) (Spec.size_adjustment d)
                 (Spec.jitter rnd (qc 8 10) (qc 12 10) (random (rng_pos w))))
     ∧ field_value out "click_rate_improvement"
       = Some (Spec.improvement rnd 8 60 (Spec.gap rnd "click_rate" d)
                 (Spec.multiplier d) (Spec.size_adjustment d)
                 (Spec.jitter rnd (qc 7 10) (qc 13 10) (random (S (rng_pos w)))))
     ∧ field_value out "conversion_rate_improvement"
       = Some (Spec.improvement rnd 10 80 (Spec.gap rnd "conversion_rate" d)
                 (Spec.multiplier d) (Spec.size_adjustment d)
                 (Spec.jitter rnd (qc 6 10) (qc 14 10) (random (S (S (rng_pos w)))))))
  ∧ (nearest rnd →
     ∀ metric, metric ∈ metrics → Spec.benchmark metric ≤ current d metric →
       Spec.gap rnd metric d = 0 ∧ gap rnd init_benchmarks d metric = Ok (NInt 0))
  ∧ (nearest rnd → exact_widths rnd →
     ∀ lo hi u, (lo, hi) ∈ jitter_ranges → 0 ≤ u → u < 1 →
       rnd lo ≤ Spec.jitter rnd lo hi u ≤ rnd hi)
  ∧ (nearest rnd →
     ∀ lo hi u u', (lo, hi) ∈ jitter_ranges → u ≤ u' →
       Spec.jitter rnd lo hi u ≤ Spec.jitter rnd lo hi u')
  ∧ (∀ lo hi u, Spec.jitter exact lo hi u = lo + (hi - lo) * u).
Proof.
  intros Hb Hwf.
  assert (∀ lo hi, (lo, hi) ∈ jitter_ranges → lo ≤ hi) as Hranges.
  { intros lo hi. unfold jitter_ranges. rewrite !elem_of_cons, elem_of_nil.
    intros [[= -> ->] | [[= -> ->] | [[= -> ->] | []]]]; compute_done. }
  split_and!; [| | | by intros Hrnd lo hi u u' Hr Hu; apply jitter_mono; [|apply Hranges|]
               | done].
  - destruct (predict_improvements_well_formed rnd random d w Hb Hwf)
      as (out & H & Ho & Hc & Hv & _).
    by exists out.
  - intros Hrnd metric Hm Hle. split; [by apply spec_gap_zero|].
    apply gap_zero; [done | done | by apply well_formed_rate | done].
  - intros Hrnd Hw lo hi u Hr Hu0 Hu1.
    apply jitter_range; [done | by apply Hranges | by apply Hw | done | by apply Qclt_le_weak].
Qed.

(** C2. For every record, every state of the model and every stream
    of draws, each improvement that [predict_improvements] returns lies
    within its metric's clamp interval: open in [5, 45], click in
    [8, 60], conversion in [10, 80]. *)
Theorem improvements_within_clamp (d : gmap string pyval) (w : world) :
  ∃ out o c v,
    fst (run (predict_improvements rnd random d) w) = Ok out
    ∧ field_value out "open_rate_improvement" = Some o
    ∧ Qc_of_Z 5 ≤ o ≤ Qc_of_Z 45
    ∧ field_value out "click_rate_improvement" = Some c
    ∧ Qc_of_Z 8 ≤ c ≤ Qc_of_Z 60
    ∧ field_value out "conversion_rate_improvement" = Some v
    ∧ Qc_of_Z 10 ≤ v ≤ Qc_of_Z 80.
Proof.
  rewrite predict_improvements_fst.
  destruct (predict_try_value _ _ _ _ _) as [out|e] eqn:E.
  - apply predict_try_value_inv in E as (o & c & v & conf & -> & _).
    eexists _, (num_val (py_round (clamp 5 45 o) 1)),
      (num_val (py_round (clamp 8 60 c) 1)), (num_val (py_round (clamp 10 80 v) 1)).
    split; [done|].
    split; [by apply field_value_num|].
    split; [by apply py_round_bounds, clamp_bounds|].
    split; [by apply field_value_num|].
    split; [by apply py_round_bounds, clamp_bounds|].
    split; [by apply field_value_num|].
    by apply py_round_bounds, clamp_bounds.
  - exists default_fallback, (qc 15 1), (qc 25 1), (qc 30 1).
    split; [done|]. repeat (split; [compute_done|]). compute_done.
Qed.

(** C3. When the four required fields are numbers or missing,
    [calculate_confidence] returns the clamp to [0.3, 0.95] of 0.7 times
    the fraction of those fields that are present and positive, plus
    0.1 if [emails_sent > 10000], minus 0.1 if [emails_sent < 1000], all
    in float arithmetic; on well-formed input, with the benchmarks of
    [__init__], the [confidence_score] returned is that value rounded to
    two decimals; and for every input whatsoever the [confidence_score]
    returned lies in [0.3, 0.95]. *)
Theorem confidence_score_spec (d : gmap string pyval) (w : world) :
  (forallb (numeric_or_absent d) required_fields = true →
   calculate_confidence rnd d = Ok (Spec.confidence rnd d))
  ∧ qc 3 10 ≤ Spec.confidence rnd d ≤ qc 95 100
  ∧ (well_formed d = true → benchmarks (self w) = init_benchmarks →
     ∃ out, fst (run (predict_improvements rnd random d) w) = Ok out
       ∧ field_value out "confidence_score" = Some (round_qc (Spec.confidence rnd d) 2))
  ∧ ∃ out c, fst (run (predict_improvements rnd random d) w) = Ok out
      ∧ field_value out "confidence_score" = Some c
      ∧ qc 3 10 ≤ c ≤ qc 95 100.
Proof.
  split; [apply calculate_confidence_spec|].
  split; [apply spec_confidence_bounds|].
  split.
  - intros Hwf Hb.
    destruct (predict_improvements_well_formed rnd random d w Hb Hwf)
      as (out & H & _ & _ & _ & Hc & _).
    by exists out.
  - rewrite predict_improvements_fst.
    destruct (predict_try_value _ _ _ _ _) as [out|e] eqn:E.
    + apply predict_try_value_inv in E as (o & c & v & conf & -> & Hc).
      eexists _, (round_qc conf 2). split; [done|]. split; [done|].
      by apply confidence_round_bounds.
    + exists default_fallback, (qc 5 10). split; [done|]. split; compute_done.
Qed.

(** C4, as the code has it. For every record and every state of the
    model, the record that [predict_improvements] returns has exactly
    the keys [open_rate_improvement], [click_rate_improvement],
    [conversion_rate_improvement], [confidence_score] and
    [prediction_method]: it carries no predicted absolute rate. *)
Theorem prediction_record_fields (d : gmap string pyval) (w : world) :
  ∃ out, fst (run (predict_improvements rnd random d) w) = Ok out
    ∧ dom out = prediction_keys
    ∧ out !! "predicted_open_rate" = None
    ∧ out !! "predicted_click_rate" = None
    ∧ out !! "predicted_conversion_rate" = None.
Proof.
  destruct (predict_improvements_dom rnd random d w) as (out & H & Hdom).
  exists out. split; [done|]. split; [done|].
  split_and!; apply not_elem_of_dom; rewrite Hdom; compute_done.
Qed.

(** C5, as the code has it. For a rounding to the nearest double, with
    the benchmarks of [__init__], on a well-formed record whose three
    metrics are at or above their benchmarks, each gap is the integer 0
    and each improvement returned is exactly its metric's floor (5, 8,
    10), whatever the jitter: the jitter multiplies the gap before the
    clamp, not the floor. *)
Theorem above_benchmarks_yields_floors (d : gmap string pyval) (w : world) :
  nearest rnd →
  benchmarks (self w) = init_benchmarks →
  well_formed d = true →
  (∀ metric, metric ∈ metrics → Spec.benchmark metric ≤ current d metric) →
  gap rnd init_benchmarks d "open_rate" = Ok (NInt 0)
  ∧ gap rnd init_benchmarks d "click_rate" = Ok (NInt 0)
  ∧ gap rnd init_benchmarks d "conversion_rate" = Ok (NInt 0)
  ∧ ∃ out, fst (run (predict_improvements rnd random d) w) = Ok out
      ∧ out !! "open_rate_improvement" = Some (PInt 5)
      ∧ out !! "click_rate_improvement" = Some (PInt 8)
      ∧ out !! "conversion_rate_improvement" = Some (PInt 10).
Proof. apply floors_when_above. Qed.


(** C7. With the benchmarks of [__init__], on well-formed input
    [predict_improvements] returns the rule-based record (it does not
    raise, and no step of its [try] block raises). A missing
    categorical field is read as [Unknown] and a missing numeric field
    as 0: the call behaves exactly as on the record with that value
    filled in. For a rounding to the nearest double, the gap of a
    missing metric is its benchmark, which is the largest gap that a
    rate that is not negative can leave, and the improvement returned
    for the metric is the formula at that gap. *)
Theorem missing_fields_take_defaults (d : gmap string pyval) (w : world) :
  benchmarks (self w) = init_benchmarks →
  well_formed d = true →
  (∀ key, key ∈ ["target_industry"; "target_company_size"] → d !! key = None →
     run (predict_improvements rnd random (<[key := PStr "Unknown"]> d)) w
     = run (predict_improvements rnd random d) w)
  ∧ (∀ key, key ∈ required_fields → d !! key = None →
       run (predict_improvements rnd random (<[key := PInt 0]> d)) w
       = run (predict_improvements rnd random d) w)
  ∧ (nearest rnd →
     ∀ metric, metric ∈ metrics → d !! metric = None →
       gap rnd init_benchmarks d metric = Ok (NFloat (Spec.benchmark metric)))
  ∧ (nearest rnd →
     ∀ d' metric, 0 ≤ current d' metric →
       Spec.gap rnd metric d' ≤ Spec.benchmark metric)
  ∧ ∃ out, fst (run (predict_improvements rnd random d) w) = Ok out
      ∧ out !! "prediction_method" = Some (PStr "rule_based_with_statistics")
      ∧ (nearest rnd → d !! "open_rate" = None →
         field_value out "open_rate_improvement"
         = Some (Spec.improvement rnd 5 45 (Spec.benchmark "open_rate")
                   (Spec.multiplier d) (Spec.size_adjustment d)
                   (Spec.jitter rnd (qc 8 10) (qc 12 10) (random (rng_pos w)))))
      ∧ (nearest rnd → d !! "click_rate" = None →
         field_value out "click_rate_improvement"
         = Some (Spec.improvement rnd 8 60 (Spec.benchmark "click_rate")
                   (Spec.multiplier d) (Spec.size_adjustment d)
                   (Spec.jitter rnd (qc 7 10) (qc 13 10) (random (S (rng_pos w))))))
      ∧ (nearest rnd → d !! "conversion_rate" = None →
         field_value out "conversion_rate_improvement"
         = Some (Spec.improvement rnd 10 80 (Spec.benchmark "conversion_rate")
                   (Spec.multiplier d) (Spec.size_adjustment d)
                   (Spec.jitter rnd (qc 6 10) (qc 14 10) (random (S (S (rng_pos w))))))).
Proof.
  intros Hb Hwf. split_and!.
  - intros key Hk Hnone. apply predict_improvements_ext, same_reads_insert; try done.
    intros [Hi Hs]%required_not_categorical. revert Hk.
    rewrite !elem_of_cons, elem_of_nil. by intros [-> | [-> | []]].
  - intros key [Hi Hs]%required_not_categorical Hnone.
    by apply predict_improvements_ext, same_reads_insert.
  - intros Hrnd metric Hm Hnone. by apply gap_missing.
  - intros Hrnd d' metric Hc. by apply spec_gap_le_benchmark.
  - destruct (predict_improvements_well_formed rnd random d w Hb Hwf)
      as (out & H & Ho & Hc & Hv & _ & Hm).
    exists out. split; [done|]. split; [done|].
    split_and!; intros Hrnd Hnone.
    + by rewrite <- (spec_gap_missing rnd d "open_rate" Hrnd Hnone).
    + by rewrite <- (spec_gap_missing rnd d "click_rate" Hrnd Hnone).
    + by rewrite <- (spec_gap_missing rnd d "conversion_rate" Hrnd Hnone).
Qed.

(** C8. When [target_industry] is missing, [None], or a string that is
    not a key of the table of multipliers (the string [Unknown] is
    not), the look-up gives 1.0 and does not raise; likewise for
    [target_company_size] and the size adjustment;
    [predict_improvements] returns a record whatever the record it is
    given; and on well-formed input, with the benchmarks of [__init__],
    the three improvements returned are the formula at multiplier 1.0,
    respectively at size adjustment 1.0. *)
Theorem unknown_category_defaults (d : gmap string pyval) (w : world) :
  (unknown_category industry_multipliers d "target_industry" = true →
   industry_multiplier d = Ok 1)
  ∧ (unknown_category size_adjustments d "target_company_size" = true →
     size_adjustment d = Ok 1)
  ∧ industry_multipliers !! "Unknown" = None
  ∧ size_adjustments !! "Unknown" = None
  ∧ (∃ out, fst (run (predict_improvements rnd random d) w) = Ok out)
  ∧ (benchmarks (self w) = init_benchmarks → well_formed d = true →
     ∃ out, fst (run (predict_improvements rnd random d) w) = Ok out
       ∧ out !! "prediction_method" = Some (PStr "rule_based_with_statistics")
       ∧ (unknown_category industry_multipliers d "target_industry" = true →
          field_value out "open_rate_improvement"
          = Some (Spec.improvement rnd 5 45 (Spec.gap rnd "open_rate" d)
                    1 (Spec.size_adjustment d)
                    (Spec.jitter rnd (qc 8 10) (qc 12 10) (random (rng_pos w))))
          ∧ field_value out "click_rate_improvement"
            = Some (Spec.improvement rnd 8 60 (Spec.gap rnd "click_rate" d)
                      1 (Spec.size_adjustment d)
                      (Spec.jitter rnd (qc 7 10) (qc 13 10) (random (S (rng_pos w)))))
          ∧ field_value out "conversion_rate_improvement"
            = Some (Spec.improvement rnd 10 80 (Spec.gap rnd "conversion_rate" d)
                      1 (Spec.size_adjustment d)
                      (Spec.jitter rnd (qc 6 10) (qc 14 10) (random (S (S (rng_pos w)))))))
       ∧ (unknown_category size_adjustments d "target_company_size" = true →
          field_value out "open_rate_improvement"
          = Some (Spec.improvement rnd 5 45 (Spec.gap rnd "open_rate" d)
                    (Spec.multiplier d) 1
                    (Spec.jitter rnd (qc 8 10) (qc 12 10) (random (rng_pos w))))
          ∧ field_value out "click_rate_improvement"
            = Some (Spec.improvement rnd 8 60 (Spec.gap rnd "click_rate" d)
                      (Spec.multiplier d) 1
                      (Spec.jitter rnd (qc 7 10) (qc 13 10) (random (S (rng_pos w)))))
          ∧ field_value out "conversion_rate_improvement"
            = Some (Spec.improvement rnd 10 80 (Spec.gap rnd "conversion_rate" d)
                      (Spec.multiplier d) 1
                      (Spec.jitter rnd (qc 6 10) (qc 14 10) (random (S (S (rng_pos w)))))))).
Proof.
  split_and!; try done.
  - by apply table_get_unknown.
  - by apply table_get_unknown.
  - rewrite predict_improvements_fst. by eexists.
  - intros Hb Hwf.
    destruct (predict_improvements_well_formed rnd random d w Hb Hwf)
      as (out & H & Ho & Hc & Hv & _ & Hm).
    exists out. split; [done|]. split; [done|]. split.
    + intros Hu. unfold Spec.multiplier in Ho, Hc, Hv.
      by rewrite (spec_lookup_unknown _ _ _ Hu) in Ho, Hc, Hv.
    + intros Hu. unfold Spec.size_adjustment in Ho, Hc, Hv.
      by rewrite (spec_lookup_unknown _ _ _ Hu) in Ho, Hc, Hv.
Qed.

(** C9. The record that [predict_improvements] returns depends on the
    world only through the benchmarks and the position in the stream of
    draws: after [train_model] has run on any training set, the model
    is trained and the prediction is the one made from any other world
    with the same benchmarks at the same position, in particular from
    the same world with [model_stats] and [historical_data] dropped. *)
Theorem prediction_independent_of_training
    (ts : list (gmap string pyval)) (d : gmap string pyval) (w w2 : world) :
  benchmarks (self w2) = benchmarks (self w) →
  rng_pos w2 = rng_pos (snd (run (train_model rnd random ts) w)) →
  is_trained (self (snd (run (train_model rnd random ts) w))) = true
  ∧ fst (run (predict_improvements rnd random d) (snd (run (train_model rnd random ts) w)))
    = fst (run (predict_improvements rnd random d) w2)
  ∧ fst (run (predict_improvements rnd random d) (snd (run (train_model rnd random ts) w)))
    = fst (run (predict_improvements rnd random d)
             (without_statistics (snd (run (train_model rnd random ts) w)))).
Proof.
  intros Hb Hp. destruct (train_model_trained rnd random ts w) as (Ht & Hbm & _).
  split; [done|]. rewrite !predict_improvements_fst. cbn [without_statistics self rng_pos benchmarks].
  by rewrite Hb, Hp, Hbm.
Qed.

(** C10. [predict_improvements] returns a record for every input and
    every state of the model; whenever its [try] block raises, the
    record is the fixed fallback. *)
Theorem predict_improvements_never_raises (d : gmap string pyval) (w : world) :
  ∃ out, fst (run (predict_improvements rnd random d) w) = Ok out
    ∧ ∀ e, fst (run (predict_try rnd random d) (snd (run (ensure_trained rnd random d) w)))
           = Raise e →
           out = default_fallback.
Proof.
  unfold predict_improvements. rewrite run_bind.
  destruct (ensure_trained_spec rnd random d w) as [l ->]. cbn [snd].
  rewrite run_try_except.
  destruct (run (predict_try rnd random d) _) as [[out|e] w2]; cbn [fst].
  - exists out. split; [done|]. intros e [=].
  - run_simpl. by exists default_fallback.
Qed.

End Predictions.

(** ** Instances and counterexamples *)

(** The examples are run in the arithmetic of the doubles, [binary64]. *)

(** The formula at the specification's second example, every draw 1/2;
    the jitter of the open rate lies between the doubles of 0.8 and
    1.2. *)
Lemma predict_improvements_formula_witness :
  (∃ out,
     fst (run (predict_improvements binary64 (constant_stream (qc 1 2)) below_benchmarks)
            fresh_world) = Ok out
     ∧ field_value out "open_rate_improvement"
       = Some (Spec.improvement binary64 5 45 (Spec.gap binary64 "open_rate" below_benchmarks)
                 (Spec.multiplier below_benchmarks) (Spec.size_adjustment below_benchmarks)
                 (Spec.jitter binary64 (qc 8 10) (qc 12 10) (qc 1 2)))
     ∧ field_value out "click_rate_improvement"
       = Some (Spec.improvement binary64 8 60 (Spec.gap binary64 "click_rate" below_benchmarks)
                 (Spec.multiplier below_benchmarks) (Spec.size_adjustment below_benchmarks)
                 (Spec.jitter binary64 (qc 7 10) (qc 13 10) (qc 1 2)))
     ∧ field_value out "conversion_rate_improvement"
       = Some (Spec.improvement binary64 10 80
                 (Spec.gap binary64 "conversion_rate" below_benchmarks)
                 (Spec.multiplier below_benchmarks) (Spec.size_adjustment below_benchmarks)
                 (Spec.jitter binary64 (qc 6 10) (qc 14 10) (qc 1 2))))
  ∧ binary64 (qc 8 10) ≤ Spec.jitter binary64 (qc 8 10) (qc 12 10) (qc 1 2)
    ≤ binary64 (qc 12 10).
Proof.
  destruct (predict_improvements_formula binary64 (constant_stream (qc 1 2))
              below_benchmarks fresh_world) as (H1 & _ & H3 & _);
    [reflexivity | vm_compute; reflexivity |].
  split; [exact H1|].
  apply (H3 binary64_nearest binary64_exact_widths);
    [repeat constructor | compute_done | compute_done].
Defined.

(** The second example of the specification: 12 x 1.3 x 1.1 = 17.16,
    returned as 17.2 when the jitter is 1. *)
Example below_benchmarks_open_improvement :
  Spec.improvement binary64 5 45 (Spec.gap binary64 "open_rate" below_benchmarks)
    (Spec.multiplier below_benchmarks) (Spec.size_adjustment below_benchmarks)
    (Spec.jitter binary64 (qc 8 10) (qc 12 10) (qc 1 2)) = qc 172 10.
Proof. compute_done. Qed.

(** Rounding matters. An open rate of 6.35 leaves a gap of 15.65, whose
    double is above 15.65: 15.7 is returned, where exact arithmetic
    would give the tie 15.65 and return 15.6. An open rate of 8.5 in
    Healthcare gives 13.5 x 1.1, whose double is above 14.85: 14.9 is
    returned. *)
Example open_rate_6_35_improvement :
  (∃ out,
     fst (run (predict_improvements binary64 (constant_stream (qc 1 2)) open_rate_6_35)
            fresh_world) = Ok out
     ∧ field_value out "open_rate_improvement" = Some (qc 157 10))
  ∧ ∃ out,
      fst (run (predict_improvements exact (constant_stream (qc 1 2)) open_rate_6_35)
             fresh_world) = Ok out
      ∧ field_value out "open_rate_improvement" = Some (qc 156 10).
Proof.
  split; rewrite predict_improvements_fst; (eexists; split; [reflexivity|]); compute_done.
Qed.

Example open_rate_8_5_improvement :
  ∃ out,
    fst (run (predict_improvements binary64 (constant_stream (qc 1 2)) open_rate_8_5)
           fresh_world) = Ok out
    ∧ field_value out "open_rate_improvement" = Some (qc 149 10).
Proof.
  rewrite predict_improvements_fst. eexists. split; [reflexivity|]. compute_done.
Qed.

(** An open rate of [10 ** 400] cannot be subtracted from a float: the
    [try] block raises [OverflowError] and the fallback comes back. *)
Example open_rate_huge_fallback :
  gap binary64 init_benchmarks open_rate_huge "open_rate" = Raise OverflowError
  ∧ fst (run (predict_improvements binary64 (constant_stream (qc 1 2)) open_rate_huge)
           fresh_world) = Ok default_fallback.
Proof.
  split; [vm_compute; reflexivity|].
  rewrite predict_improvements_fst. vm_compute. reflexivity.
Qed.

(** The confidence score of the second example. *)
Lemma confidence_score_spec_witness :
  calculate_confidence binary64 below_benchmarks = Ok (Spec.confidence binary64 below_benchmarks)
  ∧ ∃ out,
      fst (run (predict_improvements binary64 (constant_stream (qc 1 2)) below_benchmarks)
             fresh_world) = Ok out
      ∧ field_value out "confidence_score"
        = Some (round_qc (Spec.confidence binary64 below_benchmarks) 2).
Proof.
  destruct (confidence_score_spec binary64 (constant_stream (qc 1 2)) below_benchmarks
              fresh_world) as (H1 & _ & H3 & _).
  split; [apply H1; reflexivity | apply H3; [vm_compute; reflexivity | reflexivity]].
Defined.

(** Three fields out of four present and positive, fewer than 1000
    emails: 0.7 x 0.75 - 0.1 in doubles is 0.42499999999999993, not
    0.425; the score returned is 0.42. *)
Example confidence_three_of_four :
  Spec.confidence binary64
    {[ "emails_sent" := PInt 500; "open_rate" := PInt 1; "click_rate" := PInt 1 ]}
  = Q2Qc (3828059683264921 # 9007199254740992)
  ∧ round_qc (Q2Qc (3828059683264921 # 9007199254740992)) 2 = qc 42 100.
Proof. split; compute_done. Qed.

(** A comparison reads the double: 10000.00000000000000000001 is the
    double 10000.0, which is not above 10000, so the score is 0.7. *)
Example confidence_reads_doubles :
  calculate_confidence binary64
    {[ "emails_sent" := PFloat (Qc_of_Z 10000 + qc 1 (10 ^ 20));
       "open_rate" := PInt 1; "click_rate" := PInt 1; "conversion_rate" := PInt 1 ]}
  = Ok (binary64 (qc 7 10)).
Proof. vm_compute. reflexivity. Qed.

(** C4 as the specification states it fails: the record returned for the
    specification's first example has no [predicted_open_rate]. *)
Lemma output_lacks_predicted_rates :
  ¬ output_has_predicted_rates binary64 (constant_stream 0) above_benchmarks trained_world.
Proof.
  intros (out & H & Hx & _).
  destruct (predict_improvements_dom binary64 (constant_stream 0) above_benchmarks
              trained_world) as (out' & H' & Hdom).
  rewrite H in H'. apply Ok_inj in H' as <-.
  apply elem_of_dom in Hx. rewrite Hdom in Hx. revert Hx. compute_done.
Qed.

(** The first example is well formed and beats every benchmark. *)
Lemma above_benchmarks_well_formed :
  well_formed above_benchmarks = true
  ∧ ∀ metric, metric ∈ metrics → Spec.benchmark metric ≤ current above_benchmarks metric.
Proof.
  split; [vm_compute; reflexivity|]. intros metric.
  unfold metrics. rewrite !elem_of_cons, elem_of_nil.
  intros [-> | [-> | [-> | []]]]; compute_done.
Qed.

(** C5 as the specification states it fails: with every draw 0 the
    jitter of the open rate is 0.8, the claimed improvement is 4.0, and
    the code returns 5. *)
Lemma improvement_is_not_floor_times_jitter :
  ¬ improvement_is_floor_times_jitter binary64 (constant_stream 0) above_benchmarks
      trained_world.
Proof.
  intros (out & H & Ho & _).
  destruct above_benchmarks_well_formed as [Hwf Habove].
  destruct (floors_when_above binary64 (constant_stream 0) above_benchmarks trained_world
              binary64_nearest eq_refl Hwf Habove) as (_ & _ & _ & out' & H' & Ho' & _).
  rewrite H in H'. apply Ok_inj in H' as <-.
  apply (field_value_num out "open_rate_improvement" (NInt 5)) in Ho'.
  rewrite Ho' in Ho. apply (inj Some) in Ho. revert Ho. compute_done.
Qed.

(** The first example returns the floors 5, 8 and 10. *)
Lemma above_benchmarks_yields_floors_witness :
  ∃ out,
    fst (run (predict_improvements binary64 (constant_stream 0) above_benchmarks)
           trained_world) = Ok out
    ∧ out !! "open_rate_improvement" = Some (PInt 5)
    ∧ out !! "click_rate_improvement" = Some (PInt 8)
    ∧ out !! "conversion_rate_improvement" = Some (PInt 10).
Proof.
  apply (above_benchmarks_yields_floors binary64 (constant_stream 0) above_benchmarks
           trained_world binary64_nearest);
    [reflexivity | vm_compute; reflexivity |].
  intros metric. unfold metrics. rewrite !elem_of_cons, elem_of_nil.
  intros [-> | [-> | [-> | []]]]; compute_done.
Defined.



(** A record with an open rate only: the other fields take their
    defaults, the gap of the missing click rate is 3.5, and the click
    improvement returned is the formula at that gap. *)
Lemma missing_fields_take_defaults_witness :
  run (predict_improvements binary64 (constant_stream (qc 1 2))
         (<["target_industry" := PStr "Unknown"]> sparse)) fresh_world
  = run (predict_improvements binary64 (constant_stream (qc 1 2)) sparse) fresh_world
  ∧ run (predict_improvements binary64 (constant_stream (qc 1 2))
           (<["click_rate" := PInt 0]> sparse)) fresh_world
    = run (predict_improvements binary64 (constant_stream (qc 1 2)) sparse) fresh_world
  ∧ gap binary64 init_benchmarks sparse "click_rate" = Ok (NFloat (qc 35 10))
  ∧ ∃ out,
      fst (run (predict_improvements binary64 (constant_stream (qc 1 2)) sparse) fresh_world)
      = Ok out
      ∧ out !! "prediction_method" = Some (PStr "rule_based_with_statistics")
      ∧ field_value out "click_rate_improvement"
        = Some (Spec.improvement binary64 8 60 (qc 35 10) 1 1
                  (Spec.jitter binary64 (qc 7 10) (qc 13 10) (qc 1 2))).
Proof.
  destruct (missing_fields_take_defaults binary64 (constant_stream (qc 1 2)) sparse
              fresh_world) as (H1 & H2 & H3 & _ & out & H4 & H5 & _ & H7 & _);
    [reflexivity | vm_compute; reflexivity |].
  split; [apply H1; [repeat constructor | reflexivity]|].
  split; [apply H2; [repeat constructor | reflexivity]|].
  split; [apply (H3 binary64_nearest "click_rate"); [repeat constructor | reflexivity]|].
  exists out. split; [exact H4|]. split; [exact H5|].
  apply (H7 binary64_nearest). reflexivity.
Defined.

(** The first example: an industry outside the table and a company
    size of [None] both give 1.0, and the improvements are the formula
    at 1.0. *)
Lemma unknown_category_defaults_witness :
  industry_multiplier above_benchmarks = Ok 1
  ∧ size_adjustment above_benchmarks = Ok 1
  ∧ ∃ out,
      fst (run (predict_improvements binary64 (constant_stream 0) above_benchmarks)
             fresh_world) = Ok out
      ∧ field_value out "open_rate_improvement"
        = Some (Spec.improvement binary64 5 45 (Spec.gap binary64 "open_rate" above_benchmarks)
                  1 (Spec.size_adjustment above_benchmarks)
                  (Spec.jitter binary64 (qc 8 10) (qc 12 10) 0)).
Proof.
  destruct (unknown_category_defaults binary64 (constant_stream 0) above_benchmarks
              fresh_world) as (H1 & H2 & _ & _ & _ & H6).
  split; [apply H1; reflexivity|]. split; [apply H2; reflexivity|].
  destruct H6 as (out & H & _ & Hi & _); [reflexivity | vm_compute; reflexivity |].
  exists out. split; [exact H|]. apply Hi. reflexivity.
Defined.

(** Training on four campaigns does store statistics. *)
Example training_stores_statistics :
  is_Some (model_stats (self (snd (run (train_model binary64 (constant_stream (qc 1 2))
                                          training_set) fresh_world))))
  ∧ length (historical_data (self (snd (run (train_model binary64 (constant_stream (qc 1 2))
                                                training_set) fresh_world)))) = 4%nat
  ∧ rng_pos (snd (run (train_model binary64 (constant_stream (qc 1 2)) training_set)
                    fresh_world))
    = 12%nat.
Proof. split; [vm_compute; by eexists | split; vm_compute; reflexivity]. Qed.

(** Predicting after training on four campaigns, and predicting from a
    trained model without statistics at the same position in the stream. *)
Lemma prediction_independent_of_training_witness :
  fst (run (predict_improvements binary64 (constant_stream (qc 1 2)) below_benchmarks)
         (snd (run (train_model binary64 (constant_stream (qc 1 2)) training_set)
                 fresh_world)))
  = fst (run (predict_improvements binary64 (constant_stream (qc 1 2)) below_benchmarks)
           trained_world_at_12).
Proof.
  apply (prediction_independent_of_training binary64 (constant_stream (qc 1 2)) training_set
           below_benchmarks fresh_world trained_world_at_12);
    [reflexivity | vm_compute; reflexivity].
Defined.

(** An open rate that is a string makes the [try] block raise a
    [TypeError]; the fallback record comes back. *)
Lemma predict_improvements_never_raises_witness :
  fst (run (predict_improvements binary64 (constant_stream 0) malformed) fresh_world)
  = Ok default_fallback.
Proof.
  destruct (predict_improvements_never_raises binary64 (constant_stream 0) malformed
              fresh_world) as (out & -> & Hf).
  f_equal. apply (Hf TypeError). reflexivity.
Defined.
